(** * Verification of the daily-paper newsletter generator

    A shallow embedding of [src/newsletter.py] (class [NewsletterGenerator]):
    the field extractor, the topic classifier, the two templates and the
    run orchestrator, followed by the properties proved about them.

    Python strings are sequences of Unicode code points, and the regular
    expressions of the extractor are matched code point by code point, so a
    [str] is a list of code points here. *)

From Stdlib Require Import String Ascii NArith ZArith Lia.
From stdpp Require Import base option list gmap.

Local Open Scope N_scope.
Local Open Scope list_scope.

(** ** Strings *)

Definition char := N.
Definition str := list char.

Fixpoint bytes_of (s : string) : list N :=
  match s with
  | EmptyString => []
  | String a s' => N_of_ascii a :: bytes_of s'
  end.

(** UTF-8 decoding, used only to write the literals of the source. *)
Fixpoint utf8_decode (bs : list N) : str :=
  match bs with
  | [] => []
  | b0 :: t0 =>
    if b0 <? 128 then b0 :: utf8_decode t0
    else match t0 with
    | [] => []
    | b1 :: t1 =>
      if b0 <? 224 then ((b0 - 192) * 64 + (b1 - 128)) :: utf8_decode t1
      else match t1 with
      | [] => []
      | b2 :: t2 =>
        if b0 <? 240
        then ((b0 - 224) * 4096 + (b1 - 128) * 64 + (b2 - 128)) :: utf8_decode t2
        else match t2 with
        | [] => []
        | b3 :: t3 =>
          ((b0 - 240) * 262144 + (b1 - 128) * 4096 + (b2 - 128) * 64 + (b3 - 128))
            :: utf8_decode t3
        end
      end
    end
  end.

Definition u (s : string) : str := utf8_decode (bytes_of s).

Definition NL : char := 10.
Definition SP : char := 32.
Definition DQ : char := 34.

(** [str.isspace] on one code point; the same set is what [\s] matches in a
    [str] pattern. *)
Definition is_space (c : char) : bool :=
  ((9 <=? c) && (c <=? 13)) || ((28 <=? c) && (c <=? 32))
  || (c =? 133) || (c =? 160) || (c =? 5760)
  || ((8192 <=? c) && (c <=? 8202))
  || (c =? 8232) || (c =? 8233) || (c =? 8239) || (c =? 8287) || (c =? 12288).

Fixpoint lstrip (s : str) : str :=
  match s with
  | [] => []
  | c :: s' => if is_space c then lstrip s' else s
  end.

Definition rstrip (s : str) : str := rev (lstrip (rev s)).

(** [s.strip()] *)
Definition strip (s : str) : str := rstrip (lstrip s).

Fixpoint starts_with (p s : str) : bool :=
  match p, s with
  | [], _ => true
  | _ :: _, [] => false
  | a :: p', b :: s' => (a =? b) && starts_with p' s'
  end.

(** [s.split(sep, 1)[1]] when [sep] occurs in [s]: what follows its first
    occurrence. *)
Fixpoint split_after (sep s : str) : option str :=
  if starts_with sep s then Some (drop (length sep) s)
  else match s with
       | [] => None
       | _ :: s' => split_after sep s'
       end.

(** [sep in s] *)
Definition contains (sep s : str) : bool :=
  match split_after sep s with Some _ => true | None => false end.

(** Text made of whitespace only. *)
Definition blank (s : str) : Prop := Forall (fun c => is_space c = true) s.

(** [str(n)] for a non-negative integer. *)
Fixpoint digits_of_uint (d : Decimal.uint) : str :=
  match d with
  | Decimal.Nil => []
  | Decimal.D0 d' => 48 :: digits_of_uint d'
  | Decimal.D1 d' => 49 :: digits_of_uint d'
  | Decimal.D2 d' => 50 :: digits_of_uint d'
  | Decimal.D3 d' => 51 :: digits_of_uint d'
  | Decimal.D4 d' => 52 :: digits_of_uint d'
  | Decimal.D5 d' => 53 :: digits_of_uint d'
  | Decimal.D6 d' => 54 :: digits_of_uint d'
  | Decimal.D7 d' => 55 :: digits_of_uint d'
  | Decimal.D8 d' => 56 :: digits_of_uint d'
  | Decimal.D9 d' => 57 :: digits_of_uint d'
  end.

Definition str_of_nat (n : nat) : str := digits_of_uint (Nat.to_uint n).

(** [sep.join(l)] *)
Fixpoint join (sep : str) (l : list str) : str :=
  match l with
  | [] => []
  | [x] => x
  | x :: l' => x ++ sep ++ join sep l'
  end.

(** ** Regular expressions

    The fragment of Python's [re] syntax that the three patterns of
    [extract_paper_info] use, with the backtracking semantics of the [re]
    module: alternatives are tried left to right, a greedy quantifier tries
    the longest repetition first, a lazy one the shortest, and [search]
    returns the match of the leftmost start position. *)

Inductive cset :=
  | Any                       (* [.] under re.DOTALL *)
  | Space                     (* [\s] *)
  | OneOf (cs : list char)    (* [[...]] *)
  | NoneOf (cs : list char).  (* [[^...]] *)

Definition cset_mem (cs : cset) (c : char) : bool :=
  match cs with
  | Any => true
  | Space => is_space c
  | OneOf l => existsb (N.eqb c) l
  | NoneOf l => negb (existsb (N.eqb c) l)
  end.

Inductive re :=
  | Str (s : str)             (* literal characters *)
  | Cls (cs : cset)           (* one character of a class *)
  | Star (cs : cset)          (* [c*], greedy *)
  | LazyStar (cs : cset)      (* [c*?], lazy *)
  | Cat (r1 r2 : re)
  | Alt (r1 r2 : re)          (* [r1|r2] *)
  | Group (r : re)            (* capturing group 1 *)
  | Ahead (r : re)            (* [(?=r)] *)
  | Bol                       (* [^] under re.MULTILINE *)
  | EndZ.                     (* [\Z] *)

(** [c+] is [cc*] and [c+?] is [cc*?]. *)
Definition Plus (cs : cset) : re := Cat (Cls cs) (Star cs).
Definition LazyPlus (cs : cset) : re := Cat (Cls cs) (LazyStar cs).

(** A position in the subject: the character before it (none at the start),
    the text from it on, and the text of group 1 if it has matched. *)
Record mstate := MState {
  before : option char;
  rest : str;
  group1 : option str
}.

Definition advance (c : char) (s' : str) (st : mstate) : mstate :=
  MState (Some c) s' (group1 st).

Fixpoint skip (p : str) (st : mstate) : mstate :=
  match p, rest st with
  | c :: p', _ :: s' => skip p' (advance c s' st)
  | _, _ => st
  end.

Fixpoint star_greedy {R : Type} (cs : cset) (b : option char) (s : str) (g : option str)
    (k : mstate -> option R) : option R :=
  match s with
  | c :: s' =>
    if cset_mem cs c then
      match star_greedy cs (Some c) s' g k with
      | Some r => Some r
      | None => k (MState b s g)
      end
    else k (MState b s g)
  | [] => k (MState b s g)
  end.

Fixpoint star_lazy {R : Type} (cs : cset) (b : option char) (s : str) (g : option str)
    (k : mstate -> option R) : option R :=
  match k (MState b s g) with
  | Some r => Some r
  | None =>
    match s with
    | c :: s' => if cset_mem cs c then star_lazy cs (Some c) s' g k else None
    | [] => None
    end
  end.

(** [exec r st k]: match [r] at [st] and continue with [k]; [None] when every
    way of matching [r] here makes [k] fail. *)
Fixpoint exec {R : Type} (r : re) (st : mstate) (k : mstate -> option R) : option R :=
  match r with
  | Str p => if starts_with p (rest st) then k (skip p st) else None
  | Cls cs =>
    match rest st with
    | c :: s' => if cset_mem cs c then k (advance c s' st) else None
    | [] => None
    end
  | Star cs => star_greedy cs (before st) (rest st) (group1 st) k
  | LazyStar cs => star_lazy cs (before st) (rest st) (group1 st) k
  | Cat r1 r2 => exec r1 st (fun st' => exec r2 st' k)
  | Alt r1 r2 =>
    match exec r1 st k with
    | Some x => Some x
    | None => exec r2 st k
    end
  | Group r1 =>
    exec r1 st (fun st' =>
      k (MState (before st') (rest st')
           (Some (take (length (rest st) - length (rest st')) (rest st)))))
  | Ahead r1 =>
    match exec r1 st Some with
    | Some st' => k (MState (before st) (rest st) (group1 st'))
    | None => None
    end
  | Bol =>
    match before st with
    | None => k st
    | Some c => if c =? NL then k st else None
    end
  | EndZ =>
    match rest st with
    | [] => k st
    | _ :: _ => None
    end
  end.

(** The character before the position reached from [b] by reading [w]. *)
Definition after (b : option char) (w : str) : option char :=
  match last w with
  | Some c => Some c
  | None => b
  end.

(** A text at which a repetition of [cs] cannot go on. *)
Definition stops (cs : cset) (s : str) : Prop :=
  match s with
  | [] => True
  | c :: _ => cset_mem cs c = false
  end.

(** Text whose characters all belong to [cs]. *)
Definition all_in (cs : cset) (w : str) : Prop :=
  Forall (fun c => cset_mem cs c = true) w.

(** [matches r st st']: the pattern [r] can match from [st] to [st'] in some
    way; the matcher [exec] picks one of these ways by priority. *)
Inductive matches : re -> mstate -> mstate -> Prop :=
  | M_Str p b s g :
      matches (Str p) (MState b (p ++ s) g) (MState (after b p) s g)
  | M_Cls cs c b s g :
      cset_mem cs c = true ->
      matches (Cls cs) (MState b (c :: s) g) (MState (Some c) s g)
  | M_Star cs w b s g :
      all_in cs w ->
      matches (Star cs) (MState b (w ++ s) g) (MState (after b w) s g)
  | M_LazyStar cs w b s g :
      all_in cs w ->
      matches (LazyStar cs) (MState b (w ++ s) g) (MState (after b w) s g)
  | M_Cat r1 r2 st1 st2 st3 :
      matches r1 st1 st2 -> matches r2 st2 st3 -> matches (Cat r1 r2) st1 st3
  | M_AltL r1 r2 st st' :
      matches r1 st st' -> matches (Alt r1 r2) st st'
  | M_AltR r1 r2 st st' :
      matches r2 st st' -> matches (Alt r1 r2) st st'
  | M_Group r st st' :
      matches r st st' ->
      matches (Group r) st
        (MState (before st') (rest st')
           (Some (take (length (rest st) - length (rest st')) (rest st))))
  | M_Ahead r st st' :
      matches r st st' ->
      matches (Ahead r) st (MState (before st) (rest st) (group1 st'))
  | M_Bol b s g :
      b = None \/ b = Some NL ->
      matches Bol (MState b s g) (MState b s g)
  | M_EndZ b g :
      matches EndZ (MState b [] g) (MState b [] g).

(** [re.search(r, s)]: [Some g] is a match object whose [group(1)] is [g]. *)
Fixpoint search_from (r : re) (b : option char) (s : str) : option (option str) :=
  match exec r (MState b s None) Some with
  | Some st => Some (group1 st)
  | None =>
    match s with
    | [] => None
    | c :: s' => search_from r (Some c) s'
    end
  end.

Definition re_search (r : re) (s : str) : option (option str) :=
  search_from r None s.

Declare Scope re_scope.
Delimit Scope re_scope with re.
Bind Scope re_scope with re.
Infix "+>" := Cat (at level 60, right associativity) : re_scope.

(** ** The patterns of [extract_paper_info] *)

Definition TITLE_LABEL : str := Eval vm_compute in u "标题".
Definition SUMMARY_LABEL : str := Eval vm_compute in u "摘要".
Definition COLON : char := 58.
Definition WIDE_COLON : char := Eval vm_compute in default 0 (head (u "：")).

(** [[:：]] *)
Definition colon : cset := OneOf [COLON; WIDE_COLON].

(** The body of the lookahead of the title pattern: r"\s*\n\s*摘要[:：]|\Z" *)
Definition title_ahead : re :=
  Alt (Star Space +> Str [NL] +> Star Space +> Str SUMMARY_LABEL +> Cls colon)
      EndZ.

(** r"标题[:：]\s*([^\n]+)(?=\s*\n\s*摘要[:：]|\Z)", re.DOTALL *)
Definition title_re : re :=
  (Str TITLE_LABEL +> Cls colon +> Star Space +> Group (Plus (NoneOf [NL]))
   +> Ahead title_ahead)%re.

(** The body of the lookahead of the summary pattern:
    r"\s*(?:\n\s*[^：\n]+[:：]|\Z)" *)
Definition summary_ahead : re :=
  (Star Space
   +> Alt (Str [NL] +> Star Space +> Plus (NoneOf [WIDE_COLON; NL]) +> Cls colon)
          EndZ)%re.

(** r"摘要[:：]\s*([^\n].+?)(?=\s*(?:\n\s*[^：\n]+[:：]|\Z))", re.DOTALL *)
Definition summary_re : re :=
  (Str SUMMARY_LABEL +> Cls colon +> Star Space
   +> Group (Cls (NoneOf [NL]) +> LazyPlus Any)
   +> Ahead summary_ahead)%re.

(** The part of the summary pattern after r"摘要[:：]\s*": the group and the
    lookahead. *)
Definition summary_body : re :=
  (Group (Cls (NoneOf [NL]) +> LazyPlus Any) +> Ahead summary_ahead)%re.

(** r"^([^\n]+)\n\s*摘要[:：]", re.MULTILINE *)
Definition fallback_re : re :=
  (Bol +> Group (Plus (NoneOf [NL])) +> Str [NL] +> Star Space
   +> Str SUMMARY_LABEL +> Cls colon)%re.

(** '摘要：' *)
Definition SUMMARY_MARK : str := Eval vm_compute in u "摘要：".

(** The layout "标题: X" / "摘要: Y": a title line followed by a summary
    line. *)
Definition title_summary_layout (X Y : str) : str :=
  TITLE_LABEL ++ [COLON; SP] ++ X ++ [NL] ++ SUMMARY_LABEL ++ [COLON; SP] ++ Y.

(** ** Data model *)

(** The nested object under the key 'paper'. *)
Record PaperMeta := { code : option str }.

(** One input record: a JSON object whose values are strings; a key that is
    absent is [None], and [dict.get] supplies the default. *)
Record PaperRecord := {
  r_title : option str;
  r_url : option str;
  r_arxiv_url : option str;
  r_translation : option str;
  r_paper : option PaperMeta
}.

Record ExtractedPaper := {
  title : str;
  original_title : str;
  summary : str;
  paper_url : str;
  arxiv_url : str;
  code_url : str
}.

(** [d.get(key, dflt)] *)
Definition get {A} (field : option A) (dflt : A) : A := default dflt field.

(** [m.group(1)]; in the three patterns group 1 takes part in every match. *)
Definition group (m : option str) : str := default [] m.

(** ** extract_paper_info *)

Definition extract_paper_info (paper_data : PaperRecord) : ExtractedPaper :=
  let translation := get (r_translation paper_data) [] in
  let title_match := re_search title_re translation in
  let summary_match := re_search summary_re translation in
  let title_match :=
    match title_match with
    | Some m => Some m
    | None => re_search fallback_re translation
    end in
  let title :=
    strip (match title_match with
           | Some m => group m
           | None => get (r_title paper_data) []
           end) in
  let summary :=
    strip (match summary_match with Some m => group m | None => [] end) in
  let summary :=
    if bool_decide (summary = []) && contains SUMMARY_MARK translation
    then strip (default [] (split_after SUMMARY_MARK translation))
    else summary in
  {| title := title;
     original_title := get (r_title paper_data) [];
     summary := summary;
     paper_url := get (r_url paper_data) [];
     arxiv_url := get (r_arxiv_url paper_data) [];
     code_url := get (code (get (r_paper paper_data) {| code := None |})) [] |}.

(** ** The second title strategy in the specification's words

    "The leading line immediately preceding a line starting with the summary
    marker", to be compared with what the fallback pattern matches. *)

(** [s.split('\n')], with the current line accumulated in reverse. *)
Fixpoint lines_from (cur : str) (s : str) : list str :=
  match s with
  | [] => [rev cur]
  | c :: s' =>
    if c =? NL then rev cur :: lines_from [] s' else lines_from (c :: cur) s'
  end.

Definition lines (s : str) : list str := lines_from [] s.

(** A line that starts, after its indentation, with "摘要" and a colon. *)
Definition summary_line (l : str) : bool :=
  starts_with (SUMMARY_LABEL ++ [COLON]) (lstrip l)
  || starts_with SUMMARY_MARK (lstrip l).

Fixpoint line_before_summary (ls : list str) : option str :=
  match ls with
  | l :: (l' :: _) as ls' =>
    if summary_line l' then Some l else line_before_summary ls'
  | _ => None
  end.

(** The title under that reading of the second strategy. *)
Definition claimed_title (paper_data : PaperRecord) : str :=
  let translation := get (r_translation paper_data) [] in
  strip (match re_search title_re translation with
         | Some m => group m
         | None =>
           match line_before_summary (lines translation) with
           | Some l => l
           | None => get (r_title paper_data) []
           end
         end).

(** ** The second title strategy, line by line

    [leading_line_at t pre line]: in [t], after [pre], stands the whole
    non-empty line [line], followed by a newline, whitespace (newlines
    included), the label "摘要" and a colon. *)
Definition leading_line_at (t pre line : str) : Prop :=
  exists ws c post,
    t = pre ++ line ++ [NL] ++ ws ++ SUMMARY_LABEL ++ [c] ++ post
    /\ (pre = [] \/ last pre = Some NL)
    /\ line <> [] /\ (NL ∉ line) /\ blank ws
    /\ (c = COLON \/ c = WIDE_COLON).

(** The leftmost such line: no other one starts earlier in [t]. *)
Definition leftmost_leading_line (t pre line : str) : Prop :=
  leading_line_at t pre line
  /\ forall pre' line',
       leading_line_at t pre' line' -> (length pre <= length pre')%nat.

(** ** Example records *)

Definition record_of (raw_title : string) (translation : str) : PaperRecord :=
  {| r_title := Some (u raw_title); r_url := None; r_arxiv_url := None;
     r_translation := Some translation; r_paper := None |}.

(** A title that holds a summary label of its own. *)
Definition labelled_title_record : PaperRecord :=
  record_of "RAW" (title_summary_layout (u "论文摘要: 方法") (u "结果")).

(** A title line without a title. *)
Definition blank_title_record : PaperRecord :=
  record_of "RAW" (title_summary_layout [] (u "结果")).

Definition plain_record : PaperRecord :=
  record_of "RAW" (title_summary_layout (u " 视觉模型 ") (u "我们提出一种LLM方法 ")).

(** A blank line between the leading line and the summary line. *)
Definition spaced_record : PaperRecord :=
  record_of "RAW" (u "My Title

摘要: foo").

Definition leading_line_record : PaperRecord :=
  record_of "RAW" (u "My Title
摘要: foo").

Definition paper_titled (t : string) : ExtractedPaper :=
  {| title := u t; original_title := []; summary := []; paper_url := [];
     arxiv_url := []; code_url := [] |}.

(** A summary of one character after the literal marker. *)
Definition short_summary_record : PaperRecord :=
  record_of "RAW" (u "摘要：A").

(** ** Library functions

    [str.lower] and [markdown.markdown] are library code; the generator is
    parametric in them. *)
Class PyLib := {
  lower : str -> str;
  markdown : str -> str
}.

(** ASCII lower-casing, which [str.lower] is on ASCII text. *)
Definition ascii_lower (c : char) : char :=
  if (65 <=? c) && (c <=? 90) then c + 32 else c.

Definition is_ascii (c : char) : bool := c <? 128.

(** What the proofs use of [str.lower]: on ASCII text it lower-cases the
    letters A to Z and leaves the rest. *)
Class LowerAscii `{PyLib} : Prop :=
  lower_ascii : forall s : str,
    Forall (fun c => is_ascii c = true) s -> lower s = map ascii_lower s.

(** The library used in the examples: ASCII lower-casing, and a Markdown
    converter that is left as the identity. *)
Definition ascii_lib : PyLib :=
  {| lower := map ascii_lower; markdown := fun s => s |}.

(** ** get_hot_topics *)

Definition keywords : list str := Eval vm_compute in
  [u "LLM"; u "Vision"; u "Audio"; u "MultiModal"; u "NLP"; u "RL";
   u "Transformer"; u "GPT"; u "AIGC"; u "Diffusion"].

Definition DEFAULT_TOPIC : str := Eval vm_compute in u "综合领域".

(** An ordered set of topics: [x] goes to the end unless it is there. *)
Definition add_once (topics : list str) (x : str) : list str :=
  if bool_decide (x ∈ topics) then topics else topics ++ [x].

Section Topics.
Context `{PyLib}.

(** The inner loop: one paper's [content] against the keyword list. *)
Fixpoint scan_keywords (content : str) (kws : list str) (topics : list str)
    : list str :=
  match kws with
  | [] => topics
  | keyword :: kws' =>
    scan_keywords content kws'
      (if contains (lower keyword) content && negb (bool_decide (keyword ∈ topics))
       then topics ++ [keyword]
       else topics)
  end.

(** [content = title + ' ' + summary], both lower-cased *)
Definition content_of (paper : ExtractedPaper) : str :=
  lower (title paper) ++ [SP] ++ lower (summary paper).

(** The outer loop over the papers, for a given keyword list. *)
Definition collect_topics (kws : list str) (papers : list ExtractedPaper)
    : list str :=
  fold_left
    (fun topics paper => scan_keywords (content_of paper) kws topics)
    papers [].

(** [keyword.lower() in content] *)
Definition mentions (paper : ExtractedPaper) (keyword : str) : bool :=
  contains (lower keyword) (content_of paper).

(** The keywords of the list that a paper mentions, in list order. *)
Definition mentioned (kws : list str) (paper : ExtractedPaper) : list str :=
  List.filter (mentions paper) kws.

Definition format_topics (topics : list str) : str :=
  match topics with
  | [] => DEFAULT_TOPIC
  | _ => join (u ", ") topics
  end.

Definition get_hot_topics (papers : list ExtractedPaper) : str :=
  format_topics (collect_topics keywords papers).
End Topics.

(** ** The Markdown template ([self.template])

    The template text, cut at its Jinja tags.  [Template(...)] is built with
    Jinja's defaults: no autoescaping, block tags keep the newlines around
    them, and the single newline that ends the template is dropped. *)
(** up to [{{ date }}] *)
Definition MD_HEAD : str := Eval vm_compute in
  u "
# <img src=" ++ [DQ] ++ u "https://huggingface.co/datasets/huggingface/brand-assets/resolve/main/hf-logo.png" ++ [DQ] ++ u " width=" ++ [DQ] ++ u "30" ++ [DQ] ++ u "/> Hugging Face ".

(** up to [{{ total_papers }}] *)
Definition MD_STATS : str := Eval vm_compute in
  u " 论文日报

## 📊 今日论文统计
- 总论文数：".

(** up to [{{ hot_topics }}] *)
Definition MD_TOPICS : str := Eval vm_compute in
  u "
- 热门领域：".

(** up to [{% for paper in papers %}] *)
Definition MD_DETAILS : str := Eval vm_compute in
  u "

## 📝 论文详情

".

(** the loop body, up to [{{ loop.index }}] *)
Definition MD_ITEM : str := Eval vm_compute in
  u "
### ".

Definition MD_ITEM_TITLE : str := Eval vm_compute in
  u ". ".

Definition MD_ITEM_ORIGINAL : str := Eval vm_compute in
  u "

**原文标题：** ".

Definition MD_ITEM_SUMMARY : str := Eval vm_compute in
  u "

**摘要：**
".

Definition MD_ITEM_LINK : str := Eval vm_compute in
  u "

**论文链接：** [HuggingFace](".

Definition MD_ITEM_ARXIV : str := Eval vm_compute in
  u ") | [arXiv](".

(** up to [{% if paper.code_url %}] *)
Definition MD_ITEM_LINK_END : str := Eval vm_compute in
  u ")

".

Definition MD_ITEM_CODE : str := Eval vm_compute in
  u "
**代码链接：** [GitHub](".

(** up to [{% endif %}] *)
Definition MD_ITEM_CODE_END : str := Eval vm_compute in
  u ")
".

(** up to [{% endfor %}] *)
Definition MD_ITEM_END : str := Eval vm_compute in
  u "

---
".

(** after the loop, up to [{{ audio_path }}] *)
Definition MD_TRAILER : str := Eval vm_compute in
  u "

## 🔍 关键词云图
![关键词云图](../images/keywords_wordcloud.png)

## 📈 近期论文趋势
![论文趋势](../images/daily_papers.png)

## 🎙️ 语音播报
- [收听今日论文解读](../".

Definition MD_FOOT : str := Eval vm_compute in
  u ")

## 📱 订阅渠道
- GitHub: [hf-daily-paper-newsletter-chinese](https://github.com/2404589803/hf-daily-paper-newsletter-chinese)".

(** ** The HTML shell ([self.html_template]) *)

(** up to [{{ date }}] *)
Definition HTML_HEAD : str := Eval vm_compute in
  u "<!DOCTYPE html>
<html lang=" ++ [DQ] ++ u "zh-CN" ++ [DQ] ++ u ">
<head>
    <meta charset=" ++ [DQ] ++ u "UTF-8" ++ [DQ] ++ u ">
    <meta name=" ++ [DQ] ++ u "viewport" ++ [DQ] ++ u " content=" ++ [DQ] ++ u "width=device-width, initial-scale=1.0" ++ [DQ] ++ u ">
    <title>Hugging Face 论文日报 - ".

(** up to [{{ content }}] *)
Definition HTML_STYLE : str := Eval vm_compute in
  u "</title>
    <style>
        * {
            margin: 0;
            padding: 0;
            box-sizing: border-box;
        }
        
        body {
            font-family: -apple-system, BlinkMacSystemFont, 'Segoe UI', 'PingFang SC', 'Hiragino Sans GB', 'Microsoft YaHei', sans-serif;
            line-height: 1.6;
            color: #333;
            background-color: #f5f5f5;
            padding: 20px;
        }
        
        .container {
            max-width: 900px;
            margin: 0 auto;
            background-color: white;
            padding: 40px;
            border-radius: 8px;
            box-shadow: 0 2px 8px rgba(0,0,0,0.1);
        }
        
        h1 {
            color: #2c3e50;
            border-bottom: 3px solid #3498db;
            padding-bottom: 10px;
            margin-bottom: 30px;
            font-size: 28px;
        }
        
        h1 img {
            vertical-align: middle;
            margin-right: 10px;
        }
        
        h2 {
            color: #34495e;
            margin-top: 40px;
            margin-bottom: 20px;
            font-size: 24px;
            border-left: 4px solid #3498db;
            padding-left: 15px;
        }
        
        h3 {
            color: #2c3e50;
            margin-top: 30px;
            margin-bottom: 15px;
            font-size: 20px;
        }
        
        p {
            margin-bottom: 15px;
            text-align: justify;
        }
        
        ul {
            margin-left: 20px;
            margin-bottom: 20px;
        }
        
        li {
            margin-bottom: 8px;
        }
        
        a {
            color: #3498db;
            text-decoration: none;
        }
        
        a:hover {
            text-decoration: underline;
        }
        
        strong {
            color: #2c3e50;
            font-weight: 600;
        }
        
        hr {
            border: none;
            border-top: 1px solid #e0e0e0;
            margin: 30px 0;
        }
        
        /* 关键修复:限制图片宽度 */
        img {
            max-width: 100%;
            height: auto;
            display: block;
            margin: 20px auto;
            border-radius: 4px;
            box-shadow: 0 2px 4px rgba(0,0,0,0.1);
        }
        
        /* 确保图片容器也有宽度限制 */
        p img {
            max-width: 100%;
        }
        
        /* 论文详情区域样式 */
        .paper-section {
            background-color: #f9f9f9;
            padding: 20px;
            border-radius: 6px;
            margin-bottom: 20px;
        }
        
        /* 统计信息样式 */
        .stats {
            background-color: #e8f4f8;
            padding: 15px;
            border-radius: 6px;
            margin-bottom: 20px;
        }
        
        /* 响应式设计 */
        @media (max-width: 768px) {
            .container {
                padding: 20px;
            }
            
            h1 {
                font-size: 24px;
            }
            
            h2 {
                font-size: 20px;
            }
            
            h3 {
                font-size: 18px;
            }
        }
    </style>
</head>
<body>
    <div class=" ++ [DQ] ++ u "container" ++ [DQ] ++ u ">
        ".

Definition HTML_FOOT : str := Eval vm_compute in
  u "
    </div>
</body>
</html>".

(** ** Rendering *)

Record TemplateContext := {
  date : str;
  total_papers : nat;
  hot_topics : str;
  papers : list ExtractedPaper;
  wordcloud_path : option str;
  trend_path : option str;
  audio_path : str
}.

(** One pass of [{% for paper in papers %}]; [index] is [loop.index]. *)
Definition render_paper (index : nat) (paper : ExtractedPaper) : str :=
  MD_ITEM ++ str_of_nat index ++ MD_ITEM_TITLE ++ title paper
  ++ MD_ITEM_ORIGINAL ++ original_title paper
  ++ MD_ITEM_SUMMARY ++ summary paper
  ++ MD_ITEM_LINK ++ paper_url paper
  ++ MD_ITEM_ARXIV ++ arxiv_url paper
  ++ MD_ITEM_LINK_END
  ++ (if bool_decide (code_url paper = []) then []
      else MD_ITEM_CODE ++ code_url paper ++ MD_ITEM_CODE_END)
  ++ MD_ITEM_END.

Fixpoint render_papers (index : nat) (ps : list ExtractedPaper) : str :=
  match ps with
  | [] => []
  | paper :: ps' => render_paper index paper ++ render_papers (S index) ps'
  end.

(** [Template(self.template).render] on the context *)
Definition render_template (ctx : TemplateContext) : str :=
  MD_HEAD ++ date ctx
  ++ MD_STATS ++ str_of_nat (total_papers ctx)
  ++ MD_TOPICS ++ hot_topics ctx
  ++ MD_DETAILS ++ render_papers 1 (papers ctx)
  ++ MD_TRAILER ++ audio_path ctx
  ++ MD_FOOT.

(** [Template(self.html_template).render(content=..., date=...)] *)
Definition render_html_template (content date_str : str) : str :=
  HTML_HEAD ++ date_str ++ HTML_STYLE ++ content ++ HTML_FOOT.

Definition generate_html `{PyLib} (markdown_content date_str : str) : str :=
  let html_content := markdown markdown_content in
  render_html_template html_content date_str.

(** ** The world of a run

    A file is observed either through [json.load] or as the text written to
    it.  The file system is a flat map from paths to regular files.  The run
    is given twice: first on a file system that accepts [os.makedirs] and the
    two writes ([generate_newsletter]), then with the calls that the file
    system may refuse ([generate_newsletter_io]). *)

Inductive json :=
  | JNull
  | JBool (b : bool)
  | JNumber (n : Z)
  | JString (s : str)
  | JObject (o : PaperRecord)
  | JArray (l : list PaperRecord).

Inductive file :=
  | Json (v : json)    (* a JSON document: [json.load] returns [v] *)
  | Text (s : str).    (* any other text: [json.load] raises *)

Inductive level := INFO | WARNING | ERROR.

Inductive exn :=
  | FileNotFoundError (path : str)
  | JSONDecodeError (path : str)
  | FileExistsError (path : str)
  | OSError (path : str)
  | UnicodeEncodeError (text : str).

(** A log message: its text, and the exception whose [str(e)] ends it. *)
Inductive message :=
  | Msg (text : str)
  | ExnMsg (text : str) (e : exn).

Record World := {
  today : str;                      (* datetime.now().strftime('%Y-%m-%d') *)
  files : gmap str file;
  logs : list (level * message)
}.

(** Computations that read and change the world and may raise. *)
Definition M (A : Type) : Type := World -> (exn + A) * World.

#[local] Instance M_ret : MRet M := fun A a w => (inr a, w).

#[local] Instance M_bind : MBind M := fun A B f m w =>
  match m w with
  | (inl e, w') => (inl e, w')
  | (inr a, w') => f a w'
  end.

Definition raise {A} (e : exn) : M A := fun w => (inl e, w).

(** [os.path.exists(path)] *)
Definition os_path_exists (path : str) : M bool := fun w =>
  (inr (bool_decide (is_Some (files w !! path))), w).

(** [with open(path, 'r') as f: json.load(f)] *)
Definition json_load (path : str) : M json := fun w =>
  match files w !! path with
  | Some (Json v) => (inr v, w)
  | Some (Text _) => (inl (JSONDecodeError path), w)
  | None => (inl (FileNotFoundError path), w)
  end.

(** The world after [content] is written to [path]. *)
Definition put_file (path content : str) (w : World) : World :=
  {| today := today w; files := <[path := Text content]> (files w);
     logs := logs w |}.

(** The world after a message is logged. *)
Definition add_log (lvl : level) (msg : message) (w : World) : World :=
  {| today := today w; files := files w; logs := logs w ++ [(lvl, msg)] |}.

(** [with open(path, 'w') as f: f.write(content)], when the file system
    accepts the write *)
Definition write_file (path content : str) : M unit := fun w =>
  (inr tt, put_file path content w).

(** [os.makedirs(path, exist_ok=True)], when the directory is there or can
    be made *)
Definition os_makedirs (path : str) : M unit := mret tt.

Definition logger (lvl : level) (msg : message) : M unit := fun w =>
  (inr tt, add_log lvl msg w).

(** [os.path.join(a, b)] (POSIX) *)
Definition os_path_join (a b : str) : str :=
  if starts_with [47] b then b
  else if bool_decide (a = []) || bool_decide (last a = Some 47) then a ++ b
  else a ++ [47] ++ b.

(** [isinstance(v, list)] and the elements of [v] *)
Definition is_list (v : json) : bool :=
  match v with JArray _ => true | _ => false end.

Definition items (v : json) : list PaperRecord :=
  match v with JArray l => l | _ => [] end.

(** ** generate_newsletter *)

Definition INPUT_DIR : str := Eval vm_compute in u "HF-day-paper-deepseek".
Definition INPUT_SUFFIX : str := Eval vm_compute in u "_HF_deepseek_clean.json".
Definition STATS_DIR : str := Eval vm_compute in u "stats".
Definition STATS_NAME : str := Eval vm_compute in u "stats_report.json".
Definition OUTPUT_DIR : str := Eval vm_compute in u "newsletters".
Definition MD_SUFFIX : str := Eval vm_compute in u "_daily_paper.md".
Definition HTML_SUFFIX : str := Eval vm_compute in u "_daily_paper.html".
Definition WORDCLOUD_PATH : str := Eval vm_compute in u "images/keywords_wordcloud.png".
Definition TREND_PATH : str := Eval vm_compute in u "images/daily_papers.png".
Definition AUDIO_DIR : str := Eval vm_compute in u "audio/".
Definition AUDIO_SUFFIX : str := Eval vm_compute in u "_daily_papers.mp3".

Definition json_path (date_str : str) : str :=
  os_path_join INPUT_DIR (date_str ++ INPUT_SUFFIX).
Definition stats_path : str := os_path_join STATS_DIR STATS_NAME.
Definition md_path_of (date_str : str) : str :=
  os_path_join OUTPUT_DIR (date_str ++ MD_SUFFIX).
Definition html_path_of (date_str : str) : str :=
  os_path_join OUTPUT_DIR (date_str ++ HTML_SUFFIX).

(** The log messages, in the order of the source. *)
Definition msg_missing (date_str : str) : message :=
  Msg (u "未找到" ++ date_str ++ u "的论文数据文件").
Definition msg_skip (date_str : str) : message :=
  Msg (date_str ++ u " 没有论文数据,跳过生成日报").
Definition msg_nothing_extracted : message :=
  Msg (u "没有提取到有效的论文信息").
Definition msg_no_stats : message :=
  Msg (u "未找到统计数据文件,将使用简化版模板").
Definition msg_generated (md_path : str) : message :=
  Msg (u "日报已生成：" ++ md_path).
Definition msg_failed (e : exn) : message :=
  ExnMsg (u "生成日报时出错：") e.

Section Run.
Context `{PyLib}.

(** The body of the [try] block; [return] ends it with a value. *)
Definition newsletter_body (date_str : str) : M bool :=
  let json_file := json_path date_str in
  found ← os_path_exists json_file;
  if negb found then
    logger ERROR (msg_missing date_str);; mret false
  else
    papers_data ← json_load json_file;
    if negb (is_list papers_data) || (length (items papers_data) =? 0)%nat then
      logger INFO (msg_skip date_str);; mret false
    else
      let papers := map extract_paper_info (items papers_data) in
      match papers with
      | [] => logger WARNING msg_nothing_extracted;; mret false
      | _ :: _ =>
        let stats_file := stats_path in
        has_stats ← os_path_exists stats_file;
        template_data ←
          (if negb has_stats then
             logger WARNING msg_no_stats;;
             mret {| date := date_str;
                     total_papers := length papers;
                     hot_topics := get_hot_topics papers;
                     papers := papers;
                     wordcloud_path := None;
                     trend_path := None;
                     audio_path := AUDIO_DIR ++ date_str ++ AUDIO_SUFFIX |}
           else
             mret {| date := date_str;
                     total_papers := length papers;
                     hot_topics := get_hot_topics papers;
                     papers := papers;
                     wordcloud_path := Some WORDCLOUD_PATH;
                     trend_path := Some TREND_PATH;
                     audio_path := AUDIO_DIR ++ date_str ++ AUDIO_SUFFIX |});
        let newsletter_md := render_template template_data in
        let newsletter_html := generate_html newsletter_md date_str in
        let output_dir := OUTPUT_DIR in
        os_makedirs output_dir;;
        let md_path := os_path_join output_dir (date_str ++ MD_SUFFIX) in
        write_file md_path newsletter_md;;
        let html_path := os_path_join output_dir (date_str ++ HTML_SUFFIX) in
        write_file html_path newsletter_html;;
        logger INFO (msg_generated md_path);;
        mret true
      end.

(** [try: ... except Exception as e: logger.error(...); return False] *)
Definition try_except (body : M bool) (w : World) : bool * World :=
  match body w with
  | (inr b, w') => (b, w')
  | (inl e, w') => (false, snd (logger ERROR (msg_failed e) w'))
  end.

(** [if not date_str: date_str = datetime.now().strftime('%Y-%m-%d')] *)
Definition effective_date (date_str : option str) (w : World) : str :=
  match date_str with
  | None | Some [] => today w
  | Some d => d
  end.

Definition generate_newsletter (date_str : option str) (w : World)
    : bool * World :=
  let date_str := effective_date date_str w in
  try_except (newsletter_body date_str) w.

(** The Markdown text that a run renders from the records of its input. *)
Definition rendered_md (date_str : str) (papers_data : list PaperRecord) : str :=
  let papers := map extract_paper_info papers_data in
  MD_HEAD ++ date_str
  ++ MD_STATS ++ str_of_nat (length papers)
  ++ MD_TOPICS ++ get_hot_topics papers
  ++ MD_DETAILS ++ render_papers 1 papers
  ++ MD_TRAILER ++ (AUDIO_DIR ++ date_str ++ AUDIO_SUFFIX)
  ++ MD_FOOT.
End Run.

(** The two image links of the template, as Markdown text. *)
Definition WORDCLOUD_LINK : str := Eval vm_compute in
  u "![关键词云图](../images/keywords_wordcloud.png)".
Definition TREND_LINK : str := Eval vm_compute in
  u "![论文趋势](../images/daily_papers.png)".

(** ** Example worlds *)

Definition example_date : str := Eval vm_compute in u "2024-01-01".

Definition example_record : PaperRecord :=
  {| r_title := Some (u "Vision Models");
     r_url := Some (u "https://huggingface.co/papers/1");
     r_arxiv_url := Some (u "https://arxiv.org/abs/1");
     r_translation := Some (title_summary_layout (u "视觉模型") (u "我们提出一种LLM方法"));
     r_paper := Some {| code := Some (u "https://github.com/x/y") |} |}.

Definition world_with (fs : gmap str file) : World :=
  {| today := u "2024-01-02"; files := fs; logs := [] |}.

(** No input file for the date. *)
Definition empty_world : World := world_with ∅.

(** An input file that holds an empty array. *)
Definition no_data_world : World :=
  world_with {[ json_path example_date := Json (JArray []) ]}.

(** An input file with one record, and no statistics file. *)
Definition one_record_world : World :=
  world_with {[ json_path example_date := Json (JArray [example_record]) ]}.

(** The same input, among other files and with another clock and log. *)
Definition other_world : World :=
  {| today := u "2024-03-09";
     files := {[ json_path example_date := Json (JArray [example_record]);
                 u "notes.txt" := Text (u "unrelated") ]};
     logs := [(INFO, Msg (u "earlier"))] |}.

(** ** The run when the file system refuses

    [os.makedirs], [open] and [f.write] can raise, and the [except] block
    turns what they raise into [False].  Two causes are decided by the world
    and by the text: a regular file that stands where the directory should
    be, and a lone surrogate in the text, which UTF-8 does not encode.  What
    else the operating system refuses (permissions, a full disk) is a
    parameter of the run. *)
Record Faults := {
  (* [os.makedirs(path, exist_ok=True)] raises OSError *)
  makedirs_error : str -> bool;
  (* [open(path, 'w')] raises OSError; no file is made or changed *)
  open_error : str -> bool;
  (* [f.write(content)], or the flush when the file is closed, raises OSError
     and leaves this in the file *)
  write_error : str -> str -> option file
}.

(** An operating system that refuses nothing. *)
Definition no_faults : Faults :=
  {| makedirs_error := fun _ => false;
     open_error := fun _ => false;
     write_error := fun _ _ => None |}.

(** The code points U+D800 to U+DFFF; [json.load] gives them for escapes
    such as "\ud800". *)
Definition is_surrogate (c : char) : bool := (55296 <=? c) && (c <=? 57343).

(** Text that [str.encode('utf-8')] accepts. *)
Definition encodable (s : str) : bool :=
  forallb (fun c => negb (is_surrogate c)) s.

(** The world after [path] is left holding [f]. *)
Definition set_file (path : str) (f : file) (w : World) : World :=
  {| today := today w; files := <[path := f]> (files w); logs := logs w |}.

Section RunIO.
Context `{PyLib} (io : Faults).

(** [os.makedirs(path, exist_ok=True)]: FileExistsError when [path] is a
    regular file. *)
Definition os_makedirs_io (path : str) : M unit := fun w =>
  if bool_decide (is_Some (files w !! path)) then
    (inl (FileExistsError path), w)
  else if makedirs_error io path then (inl (OSError path), w)
  else (inr tt, w).

(** [with open(path, 'w', encoding='utf-8') as f: f.write(content)]: [open]
    makes the file or empties it; [f.write] encodes the whole text before it
    writes any of it. *)
Definition write_file_io (path content : str) : M unit := fun w =>
  if open_error io path then (inl (OSError path), w)
  else if negb (encodable content) then
    (inl (UnicodeEncodeError content), put_file path [] w)
  else
    match write_error io path content with
    | Some partial => (inl (OSError path), set_file path partial w)
    | None => (inr tt, put_file path content w)
    end.

(** The body of the [try] block. *)
Definition newsletter_body_io (date_str : str) : M bool :=
  let json_file := json_path date_str in
  found ← os_path_exists json_file;
  if negb found then
    logger ERROR (msg_missing date_str);; mret false
  else
    papers_data ← json_load json_file;
    if negb (is_list papers_data) || (length (items papers_data) =? 0)%nat then
      logger INFO (msg_skip date_str);; mret false
    else
      let papers := map extract_paper_info (items papers_data) in
      match papers with
      | [] => logger WARNING msg_nothing_extracted;; mret false
      | _ :: _ =>
        let stats_file := stats_path in
        has_stats ← os_path_exists stats_file;
        template_data ←
          (if negb has_stats then
             logger WARNING msg_no_stats;;
             mret {| date := date_str;
                     total_papers := length papers;
                     hot_topics := get_hot_topics papers;
                     papers := papers;
                     wordcloud_path := None;
                     trend_path := None;
                     audio_path := AUDIO_DIR ++ date_str ++ AUDIO_SUFFIX |}
           else
             mret {| date := date_str;
                     total_papers := length papers;
                     hot_topics := get_hot_topics papers;
                     papers := papers;
                     wordcloud_path := Some WORDCLOUD_PATH;
                     trend_path := Some TREND_PATH;
                     audio_path := AUDIO_DIR ++ date_str ++ AUDIO_SUFFIX |});
        let newsletter_md := render_template template_data in
        let newsletter_html := generate_html newsletter_md date_str in
        let output_dir := OUTPUT_DIR in
        os_makedirs_io output_dir;;
        let md_path := os_path_join output_dir (date_str ++ MD_SUFFIX) in
        write_file_io md_path newsletter_md;;
        let html_path := os_path_join output_dir (date_str ++ HTML_SUFFIX) in
        write_file_io html_path newsletter_html;;
        logger INFO (msg_generated md_path);;
        mret true
      end.

Definition generate_newsletter_io (date_str : option str) (w : World)
    : bool * World :=
  let date_str := effective_date date_str w in
  try_except (newsletter_body_io date_str) w.

(** The end of the [try] block, from [os.makedirs] on, for the Markdown text
    [md]. *)
Definition save_outputs (date_str md : str) : M bool :=
  os_makedirs_io OUTPUT_DIR;;
  write_file_io (md_path_of date_str) md;;
  write_file_io (html_path_of date_str) (generate_html md date_str);;
  logger INFO (msg_generated (md_path_of date_str));;
  mret true.

(** ** The command line *)

(** [python newsletter.py [--date DATE]]: the exit status of the process;
    [date_arg] is [args.date], [None] without the flag. *)
Definition main_io (date_arg : option str) (w : World) : nat * World :=
  let (success, w') := generate_newsletter_io date_arg w in
  (if negb success then 1%nat else 0%nat, w').
End RunIO.

(** ** The outcome of a run as a value

    What the end of the [try] block comes to: the value returned, the files
    left at their paths, in order, and the last log entry. *)
Definition save_result `{PyLib} (io : Faults) (date_str md : str)
    (dir_is_file : bool) : bool * list (str * file) * (level * message) :=
  let md_path := md_path_of date_str in
  let html_path := html_path_of date_str in
  let html := generate_html md date_str in
  let failed (writes : list (str * file)) (e : exn) :=
    (false, writes, (ERROR, msg_failed e)) in
  if dir_is_file then failed [] (FileExistsError OUTPUT_DIR)
  else if makedirs_error io OUTPUT_DIR then failed [] (OSError OUTPUT_DIR)
  else if open_error io md_path then failed [] (OSError md_path)
  else if negb (encodable md) then
    failed [(md_path, Text [])] (UnicodeEncodeError md)
  else
    match write_error io md_path md with
    | Some partial => failed [(md_path, partial)] (OSError md_path)
    | None =>
      if open_error io html_path then
        failed [(md_path, Text md)] (OSError html_path)
      else if negb (encodable html) then
        failed [(md_path, Text md); (html_path, Text [])]
          (UnicodeEncodeError html)
      else
        match write_error io html_path html with
        | Some partial =>
          failed [(md_path, Text md); (html_path, partial)] (OSError html_path)
        | None =>
          (true, [(md_path, Text md); (html_path, Text html)],
           (INFO, msg_generated md_path))
        end
    end.

(** What a run comes to, by what it finds: the value returned, the files
    left, and the log entries added. *)
Definition run_result `{PyLib} (io : Faults) (date_str : str)
    (input : option file) (has_stats dir_is_file : bool)
    : bool * list (str * file) * list (level * message) :=
  match input with
  | None => (false, [], [(ERROR, msg_missing date_str)])
  | Some (Text _) =>
    (false, [], [(ERROR, msg_failed (JSONDecodeError (json_path date_str)))])
  | Some (Json (JArray (r :: l))) =>
    let '(b, writes, final) :=
      save_result io date_str (rendered_md date_str (r :: l)) dir_is_file in
    (b, writes,
     (if has_stats then [] else [(WARNING, msg_no_stats)]) ++ [final])
  | Some (Json _) => (false, [], [(INFO, msg_skip date_str)])
  end.

(** [open] and [f.write] go through for [content] at [path]. *)
Definition accepts (io : Faults) (path content : str) : bool :=
  negb (open_error io path) && encodable content
  && match write_error io path content with None => true | Some _ => false end.

(** The file map after a sequence of files has been left at their paths. *)
Definition apply_writes (writes : list (str * file)) (fs : gmap str file)
    : gmap str file :=
  fold_left (fun fs pf => <[pf.1 := pf.2]> fs) writes fs.

(** A date as the command line asks for it: YYYY-MM-DD. *)
Definition is_digit (c : char) : bool := (48 <=? c) && (c <=? 57).

Definition iso_date (d : str) : bool :=
  match d with
  | [y1; y2; y3; y4; a; m1; m2; b; d1; d2] =>
    is_digit y1 && is_digit y2 && is_digit y3 && is_digit y4 && (a =? 45)
    && is_digit m1 && is_digit m2 && (b =? 45) && is_digit d1 && is_digit d2
  | _ => false
  end.

(** ** Further examples *)

(** A regular file stands where the output directory should be. *)
Definition blocked_world : World :=
  world_with {[ json_path example_date := Json (JArray [example_record]);
                OUTPUT_DIR := Text [] ]}.

(** A record whose title holds a lone surrogate. *)
Definition surrogate_record : PaperRecord :=
  {| r_title := Some [55296]; r_url := None; r_arxiv_url := None;
     r_translation := None; r_paper := None |}.

Definition surrogate_world : World :=
  world_with {[ json_path example_date := Json (JArray [surrogate_record]) ]}.

(** The disk is full when the HTML file is written. *)
Definition html_refused : Faults :=
  {| makedirs_error := fun _ => false;
     open_error := fun _ => false;
     write_error := fun path _ =>
       if bool_decide (path = html_path_of example_date) then Some (Text [])
       else None |}.

(** Two lines that are each followed by a summary line. *)
Definition two_lines_record : PaperRecord :=
  record_of "RAW" (u "A
摘要: x
B
摘要: y").

(** ** Further notions used in the statements *)

(** Patterns without a capturing group. *)
Fixpoint group_free (r : re) : bool :=
  match r with
  | Group _ => false
  | Cat r1 r2 | Alt r1 r2 => group_free r1 && group_free r2
  | Ahead r1 => group_free r1
  | _ => true
  end.

(** Text without leading or trailing whitespace. *)
Definition trimmed (s : str) : Prop :=
  (forall c t, s = c :: t -> is_space c = false)
  /\ (forall t c, s = t ++ [c] -> is_space c = false).

(** The title element and the container of the HTML shell. *)
Definition HTML_TITLE_OPEN : str := Eval vm_compute in
  u "<title>Hugging Face 论文日报 - ".
Definition HTML_TITLE_CLOSE : str := Eval vm_compute in u "</title>".
Definition HTML_CONTAINER_OPEN : str := Eval vm_compute in
  u "<div class=" ++ [DQ] ++ u "container" ++ [DQ] ++ u ">
        ".
Definition HTML_CONTAINER_CLOSE : str := Eval vm_compute in
  u "
    </div>".

(** The heading of a paper in the Markdown text: "### index. title". *)
Definition paper_heading (index : nat) (paper : ExtractedPaper) : str :=
  MD_ITEM ++ str_of_nat index ++ MD_ITEM_TITLE ++ title paper.

(** The link to the audio file of the date. *)
Definition audio_link (date_str : str) : str :=
  u "- [收听今日论文解读](../audio/" ++ date_str ++ u "_daily_papers.mp3)".

(** A record without a translation, and one whose translation has no label. *)
Definition untranslated_record : PaperRecord :=
  {| r_title := Some (u " Raw Title "); r_url := None; r_arxiv_url := None;
     r_translation := None; r_paper := None |}.

Definition unlabelled_record : PaperRecord :=
  record_of " Raw Title " (u "just some text
over two lines").

(** An input file that is not JSON. *)
Definition broken_world : World :=
  world_with {[ json_path example_date := Text (u "{not json") ]}.

(** * Properties *)

(** ** Strings *)

Lemma lstrip_blank (w s : str) : blank w -> lstrip (w ++ s) = lstrip s.
Proof.
  induction 1 as [|c w Hc _ IH]; [done|]. simpl. by rewrite Hc.
Qed.

Lemma lstrip_solid (c : char) (s : str) :
  is_space c = false -> lstrip (c :: s) = c :: s.
Proof. intros Hc. simpl. by rewrite Hc. Qed.

(** What [lstrip] removes is blank, and what it leaves starts with a
    character that is not a space. *)
Lemma lstrip_split (s : str) :
  exists w, s = w ++ lstrip s /\ blank w /\
    match lstrip s with [] => True | c :: _ => is_space c = false end.
Proof.
  induction s as [|c s (w & Hs & Hw & Hh)]; simpl.
  - exists []. split; [done|]. split; [constructor|done].
  - destruct (is_space c) eqn:Hc.
    + exists (c :: w). split; [simpl; by f_equal|]. split; [by constructor|done].
    + exists []. split; [done|]. split; [constructor|done].
Qed.

Lemma lstrip_idem (s : str) : lstrip (lstrip s) = lstrip s.
Proof.
  destruct (lstrip_split s) as (w & _ & _ & Hh).
  destruct (lstrip s) as [|c t]; [done|]. by apply lstrip_solid.
Qed.

Lemma blank_rev (w : str) : blank w -> blank (rev w).
Proof. unfold blank. rewrite !Forall_forall. intros Hw c Hc. apply Hw.
  apply list_elem_of_In. apply in_rev. by apply list_elem_of_In. Qed.

Lemma rstrip_blank (s w : str) : blank w -> rstrip (s ++ w) = rstrip s.
Proof.
  intros Hw. unfold rstrip. rewrite rev_app_distr.
  by rewrite lstrip_blank by by apply blank_rev.
Qed.

Lemma rstrip_solid (s : str) (c : char) :
  is_space c = false -> rstrip (s ++ [c]) = s ++ [c].
Proof.
  intros Hc. unfold rstrip. rewrite rev_app_distr. simpl. rewrite Hc.
  simpl. by rewrite rev_involutive.
Qed.

(** What [rstrip] removes is blank, and what it leaves ends with a character
    that is not a space. *)
Lemma rstrip_split (s : str) :
  exists w, s = rstrip s ++ w /\ blank w /\
    (rstrip s = [] \/ exists m c, rstrip s = m ++ [c] /\ is_space c = false).
Proof.
  unfold rstrip. destruct (lstrip_split (rev s)) as (w & Hs & Hw & Hh).
  exists (rev w). split; [|split].
  - rewrite <- rev_app_distr, <- Hs. by rewrite rev_involutive.
  - by apply blank_rev.
  - destruct (lstrip (rev s)) as [|c t]; [by left|right].
    exists (rev t), c. by simpl.
Qed.

Lemma rstrip_idem_app (a b : str) : rstrip (a ++ rstrip b) = rstrip (a ++ b).
Proof.
  destruct (rstrip_split b) as (w & Hb & Hw & _).
  transitivity (rstrip (a ++ (rstrip b ++ w))); [|by rewrite <- Hb].
  by rewrite app_assoc, (rstrip_blank (a ++ rstrip b) w).
Qed.

Lemma rstrip_all_blank (w : str) : blank w -> rstrip w = [].
Proof. intros Hw. by rewrite <- (app_nil_l w), rstrip_blank. Qed.

Lemma lstrip_all_blank (w : str) : blank w -> lstrip w = [].
Proof. intros Hw. by rewrite <- (app_nil_r w), lstrip_blank. Qed.

Lemma strip_lstrip (s : str) : strip (lstrip s) = strip s.
Proof. unfold strip. by rewrite lstrip_idem. Qed.

Lemma strip_blank_l (w s : str) : blank w -> strip (w ++ s) = strip s.
Proof. intros Hw. unfold strip. by rewrite lstrip_blank. Qed.

Lemma strip_all_blank (w : str) : blank w -> strip w = [].
Proof. intros Hw. unfold strip. by rewrite lstrip_all_blank. Qed.

(** ** Prefixes and substrings *)

Lemma starts_with_app (p s : str) : starts_with p (p ++ s) = true.
Proof. induction p as [|c p IH]; [done|]. simpl. by rewrite N.eqb_refl. Qed.

Lemma starts_with_inv (p s : str) :
  starts_with p s = true -> exists s', s = p ++ s'.
Proof.
  revert s. induction p as [|c p IH]; intros s Hs; [by exists s|].
  destruct s as [|d s]; [done|]. simpl in Hs.
  apply andb_true_iff in Hs as [Hc Hs]. apply N.eqb_eq in Hc as ->.
  destruct (IH _ Hs) as [s' ->]. by exists s'.
Qed.

Lemma drop_length_app (p s : str) : drop (length p) (p ++ s) = s.
Proof. by rewrite drop_app_length. Qed.

Lemma split_after_inv (p s t : str) :
  split_after p s = Some t -> exists a, s = a ++ p ++ t.
Proof.
  induction s as [|c s IH]; simpl.
  - destruct (starts_with p []) eqn:Hp; [|done].
    intros [= <-]. apply starts_with_inv in Hp as [s' Hs]. exists [].
    simpl. rewrite Hs at 2. rewrite drop_length_app.
    symmetry in Hs. apply app_eq_nil in Hs as [-> ->]. done.
  - destruct (starts_with p (c :: s)) eqn:Hp.
    + intros [= <-]. apply starts_with_inv in Hp as [s' Hs]. exists [].
      simpl. rewrite Hs at 1. by rewrite Hs, drop_length_app.
    + intros Ht. destruct (IH Ht) as [a ->]. by exists (c :: a).
Qed.

Lemma split_after_eq (p s : str) :
  split_after p s =
    if starts_with p s then Some (drop (length p) s)
    else match s with [] => None | _ :: s' => split_after p s' end.
Proof. by destruct s. Qed.

Lemma split_after_here (p s : str) : split_after p (p ++ s) = Some s.
Proof. by rewrite split_after_eq, starts_with_app, drop_length_app. Qed.

Lemma contains_intro (p a b : str) : contains p (a ++ p ++ b) = true.
Proof.
  unfold contains. induction a as [|c a IH]; simpl.
  - by rewrite split_after_here.
  - destruct (starts_with p (c :: a ++ p ++ b)); [done|]. apply IH.
Qed.

Lemma contains_inv (p s : str) :
  contains p s = true -> exists a b, s = a ++ p ++ b.
Proof.
  unfold contains. destruct (split_after p s) as [t|] eqn:E; [|done].
  intros _. apply split_after_inv in E as [a ->]. by exists a, t.
Qed.

Lemma contains_false_split (p s : str) :
  contains p s = false -> split_after p s = None.
Proof. unfold contains. by destruct (split_after p s). Qed.

Lemma contains_app_r (p a b : str) :
  contains p b = true -> contains p (a ++ b) = true.
Proof.
  intros (x & y & ->)%contains_inv. rewrite app_assoc. apply contains_intro.
Qed.

Lemma contains_app_l (p a b : str) :
  contains p a = true -> contains p (a ++ b) = true.
Proof.
  intros (x & y & ->)%contains_inv. rewrite <- !app_assoc. apply contains_intro.
Qed.

(** A pattern that does not contain the separator occurs in [a sep b] only
    inside [a] or inside [b]. *)
Lemma contains_sep (p a b : str) (sep : char) :
  p <> [] -> sep ∉ p ->
  contains p (a ++ sep :: b) = contains p a || contains p b.
Proof.
  intros Hp Hsep.
  destruct (contains p (a ++ sep :: b)) eqn:E.
  - symmetry. apply contains_inv in E as (x & y & E).
    apply app_eq_inv in E as [(m & -> & E)|(m & -> & E)].
    + symmetry in E. apply app_eq_inv in E as [(m' & -> & E)|(m' & -> & E)].
      * by rewrite contains_intro.
      * destruct m' as [|d m'].
        -- rewrite app_nil_r. rewrite <- (app_nil_r m) at 2.
           by rewrite contains_intro.
        -- injection E as <- _. exfalso. apply Hsep.
           apply elem_of_app. right. by left.
    + destruct m as [|d m].
      * simpl in E. destruct p as [|d p]; [done|]. injection E as <- _.
        exfalso. apply Hsep. by left.
      * injection E as _ ->. rewrite contains_intro. by rewrite orb_true_r.
  - symmetry. apply orb_false_iff. split.
    + destruct (contains p a) eqn:Ea; [|done].
      apply contains_inv in Ea as (x & y & ->).
      by rewrite <- !app_assoc, contains_intro in E.
    + destruct (contains p b) eqn:Eb; [|done].
      apply contains_inv in Eb as (x & y & ->).
      replace (a ++ sep :: x ++ p ++ y) with ((a ++ sep :: x) ++ p ++ y) in E
        by by rewrite <- app_assoc.
      by rewrite contains_intro in E.
Qed.

(** ** The matcher *)

Lemma after_nil b : after b [] = b.
Proof. done. Qed.

Lemma after_cons b c w : after b (c :: w) = after (Some c) w.
Proof.
  unfold after. destruct w as [|d w]; [done|].
  change (last (c :: d :: w)) with (last (d :: w)).
  destruct (last (d :: w)) eqn:E; [done|].
  by apply last_None in E.
Qed.

Lemma after_app b w1 w2 : after b (w1 ++ w2) = after (after b w1) w2.
Proof.
  revert b. induction w1 as [|c w1 IH]; intros b; [done|].
  simpl. by rewrite !after_cons, IH.
Qed.

Lemma skip_app p s b g : skip p (MState b (p ++ s) g) = MState (after b p) s g.
Proof.
  revert b. induction p as [|c p IH]; intros b.
  - by destruct s.
  - simpl. unfold advance. simpl. by rewrite IH, after_cons.
Qed.

Lemma exec_str {R : Type} p s b g (k : mstate -> option R) :
  exec (Str p) (MState b (p ++ s) g) k = k (MState (after b p) s g).
Proof. simpl. by rewrite starts_with_app, skip_app. Qed.

Lemma exec_str_fail {R : Type} p st (k : mstate -> option R) :
  starts_with p (rest st) = false -> exec (Str p) st k = None.
Proof. simpl. by intros ->. Qed.

Lemma star_greedy_eq {R : Type} cs b s g (k : mstate -> option R) :
  star_greedy cs b s g k =
    match s with
    | c :: s' =>
      if cset_mem cs c then
        match star_greedy cs (Some c) s' g k with
        | Some r => Some r
        | None => k (MState b s g)
        end
      else k (MState b s g)
    | [] => k (MState b s g)
    end.
Proof. by destruct s. Qed.

Lemma star_lazy_eq {R : Type} cs b s g (k : mstate -> option R) :
  star_lazy cs b s g k =
    match k (MState b s g) with
    | Some r => Some r
    | None =>
      match s with
      | c :: s' => if cset_mem cs c then star_lazy cs (Some c) s' g k else None
      | [] => None
      end
    end.
Proof. by destruct s. Qed.

(** When the continuation fails after every non-empty repetition, a greedy
    repetition ends up matching nothing. *)
Lemma star_greedy_all_fail {R : Type} cs b w s g (k : mstate -> option R) :
  all_in cs w -> stops cs s ->
  (forall u v, w = u ++ v -> u <> [] ->
     k (MState (after b u) (v ++ s) g) = None) ->
  star_greedy cs b (w ++ s) g k = k (MState b (w ++ s) g).
Proof.
  intros Hw Hs. revert b. induction Hw as [|c w Hc Hw IH]; intros b Hk.
  - simpl. rewrite star_greedy_eq. destruct s as [|d s]; [done|].
    simpl in Hs. by rewrite Hs.
  - simpl. rewrite Hc. rewrite IH.
    + assert (Hc' := Hk [c] w eq_refl ltac:(done)).
      change (after b [c]) with (Some c) in Hc'. by rewrite Hc'.
    + intros u v -> Hu. specialize (Hk (c :: u) v eq_refl).
      rewrite after_cons in Hk. by apply Hk.
Qed.

(** The repetition stops at the longest split at which the continuation
    succeeds. *)
Lemma star_greedy_first {R : Type} cs b w1 w2 s g (k : mstate -> option R) r :
  all_in cs w1 -> all_in cs w2 -> stops cs s ->
  (forall u v, w2 = u ++ v -> u <> [] ->
     k (MState (after (after b w1) u) (v ++ s) g) = None) ->
  k (MState (after b w1) (w2 ++ s) g) = Some r ->
  star_greedy cs b (w1 ++ w2 ++ s) g k = Some r.
Proof.
  intros Hw1 Hw2 Hs. revert b. induction Hw1 as [|c w1 Hc Hw1 IH]; intros b Hk Hr.
  - simpl. rewrite star_greedy_all_fail; done.
  - simpl. rewrite Hc. rewrite (IH (Some c)); [done| |].
    + intros u v E Hu. rewrite <- (after_cons b). by apply Hk.
    + by rewrite <- (after_cons b).
Qed.

Lemma star_greedy_none {R : Type} cs b w s g (k : mstate -> option R) :
  all_in cs w -> stops cs s ->
  (forall u v, w = u ++ v -> k (MState (after b u) (v ++ s) g) = None) ->
  star_greedy cs b (w ++ s) g k = None.
Proof.
  intros Hw Hs Hk. rewrite star_greedy_all_fail; [|done|done|].
  - apply (Hk [] w eq_refl).
  - intros u v E _. by apply Hk.
Qed.

(** A lazy repetition stops at the shortest split at which the continuation
    succeeds. *)
Lemma star_lazy_first {R : Type} cs b m s g (k : mstate -> option R) r :
  all_in cs m ->
  (forall u v, m = u ++ v -> v <> [] ->
     k (MState (after b u) (v ++ s) g) = None) ->
  k (MState (after b m) s g) = Some r ->
  star_lazy cs b (m ++ s) g k = Some r.
Proof.
  intros Hm. revert b. induction Hm as [|c m Hc Hm IH]; intros b Hk Hr.
  - simpl. rewrite star_lazy_eq. change (after b []) with b in Hr.
    by rewrite Hr.
  - simpl. assert (Hc' := Hk [] (c :: m) eq_refl ltac:(done)).
    change (after b []) with b in Hc'. simpl in Hc'. rewrite Hc', Hc.
    apply IH.
    + intros u v -> Hv. specialize (Hk (c :: u) v eq_refl Hv).
      by rewrite after_cons in Hk.
    + by rewrite <- (after_cons b).
Qed.

Lemma take_consumed (a b : str) :
  take (length (a ++ b) - length b) (a ++ b) = a.
Proof.
  rewrite length_app. replace (length a + length b - length b)%nat
    with (length a) by lia.
  by rewrite take_app_length.
Qed.

(** ** Searching *)

Lemma search_from_eq r b s :
  search_from r b s =
    match exec r (MState b s None) Some with
    | Some st => Some (group1 st)
    | None =>
      match s with
      | [] => None
      | c :: s' => search_from r (Some c) s'
      end
    end.
Proof. by destruct s. Qed.

Lemma search_from_hit r b s st :
  exec r (MState b s None) Some = Some st ->
  search_from r b s = Some (group1 st).
Proof. intros E. by rewrite search_from_eq, E. Qed.

(** The search moves on over the start positions at which the pattern
    fails. *)
Lemma search_from_skip r b p s :
  (forall u v, p = u ++ v -> v <> [] ->
     exec r (MState (after b u) (v ++ s) None) Some = None) ->
  search_from r b (p ++ s) = search_from r (after b p) s.
Proof.
  revert b. induction p as [|c p IH]; intros b Hp; [done|].
  simpl. assert (Hc := Hp [] (c :: p) eq_refl ltac:(done)).
  change (after b []) with b in Hc. simpl in Hc. rewrite Hc.
  rewrite after_cons. apply IH.
  intros u v -> Hv. specialize (Hp (c :: u) v eq_refl Hv).
  by rewrite after_cons in Hp.
Qed.

(** ** Steps of the patterns *)

Lemma exec_cls {R : Type} cs c s b g (k : mstate -> option R) :
  cset_mem cs c = true ->
  exec (Cls cs) (MState b (c :: s) g) k = k (MState (Some c) s g).
Proof. simpl. by intros ->. Qed.

Lemma exec_cls_fail {R : Type} cs c s b g (k : mstate -> option R) :
  cset_mem cs c = false -> exec (Cls cs) (MState b (c :: s) g) k = None.
Proof. simpl. by intros ->. Qed.

Lemma not_nl_in (c : char) : c <> NL -> cset_mem (NoneOf [NL]) c = true.
Proof. intros Hc. simpl. apply N.eqb_neq in Hc. by rewrite Hc. Qed.

Lemma all_in_not_nl (s : str) : NL ∉ s -> all_in (NoneOf [NL]) s.
Proof.
  intros Hs. apply Forall_forall. intros c Hc. apply not_nl_in.
  intros ->. by apply Hs.
Qed.

Lemma all_in_any (s : str) : all_in Any s.
Proof. by apply Forall_forall. Qed.

(** A greedy [(c+)] takes the whole run when the continuation accepts it. *)
Lemma exec_group_plus {R : Type} cs c w s b g (k : mstate -> option R) r :
  all_in cs (c :: w) -> stops cs s ->
  k (MState (after (Some c) w) s (Some (c :: w))) = Some r ->
  exec (Group (Plus cs)) (MState b (c :: w ++ s) g) k = Some r.
Proof.
  intros Hw Hs Hk. apply Forall_cons in Hw as [Hc Hw].
  unfold Plus. cbn [exec before rest group1 advance]. rewrite Hc.
  rewrite <- (app_nil_l s) at 1.
  apply star_greedy_first; [done|constructor|done| |].
  - intros [|??] ? ? ?; done.
  - cbn [before rest]. rewrite app_nil_l.
    change (c :: w ++ s) with ((c :: w) ++ s). by rewrite take_consumed.
Qed.

(** The lookahead of the title pattern succeeds in front of a summary line. *)
Lemma title_ahead_summary_line b s g :
  exec title_ahead (MState b (NL :: SUMMARY_LABEL ++ COLON :: s) g) Some
  = Some (MState (Some COLON) s g).
Proof. reflexivity. Qed.

(** Past the last newline, the lookahead of the summary pattern succeeds
    exactly on blank text. *)
Lemma summary_ahead_blank b s g :
  blank s -> exists b', exec summary_ahead (MState b s g) Some = Some (MState b' [] g).
Proof.
  intros Hs. exists (after b s). unfold summary_ahead. cbn [exec before rest group1].
  rewrite <- (app_nil_r s) at 1. rewrite <- (app_nil_l []) at 1.
  apply star_greedy_first; [done|constructor|done| |done].
  intros [|??] ? ? ?; done.
Qed.

Lemma summary_ahead_solid b s g :
  NL ∉ s -> ~ blank s -> exec summary_ahead (MState b s g) Some = None.
Proof.
  intros Hnl Hs. destruct (lstrip_split s) as (w & E & Hw & Hh).
  destruct (lstrip s) as [|c t].
  { exfalso. apply Hs. rewrite E. by rewrite app_nil_r. }
  unfold summary_ahead. cbn [exec before rest group1]. rewrite E.
  apply star_greedy_none; [done|done|].
  intros u v ->.
  assert (NL ∉ v ++ c :: t) as Hv.
  { intros Hin. apply Hnl. rewrite E, <- app_assoc. apply elem_of_app. by right. }
  destruct (v ++ c :: t) as [|d t'] eqn:Ev; [by destruct v|].
  assert (d <> NL) as Hd by (intros ->; apply Hv; by left).
  cbn [exec rest starts_with]. apply N.eqb_neq in Hd.
  rewrite N.eqb_sym in Hd. by rewrite Hd.
Qed.

(** ** The summary pattern on one line *)

Lemma summary_re_body :
  summary_re = (Str SUMMARY_LABEL +> Cls colon +> Star Space +> summary_body)%re.
Proof. reflexivity. Qed.

(** On text without a newline, the group of the summary pattern needs two
    characters, and extends to the last character that is not a space. *)
Lemma summary_body_short b s :
  (length s < 2)%nat -> exec summary_body (MState b s None) Some = None.
Proof.
  intros Hs. destruct s as [|c [|c2 s2]]; [done| |simpl in Hs; lia].
  unfold summary_body, LazyPlus. cbn [exec rest]. by destruct (cset_mem _ c).
Qed.

Lemma summary_body_long b c c2 s2 :
  NL ∉ c :: c2 :: s2 ->
  exists st, exec summary_body (MState b (c :: c2 :: s2) None) Some = Some st
             /\ group1 st = Some (c :: c2 :: rstrip s2).
Proof.
  intros Hnl.
  assert (c <> NL) as Hc by (intros ->; apply Hnl; by left).
  assert (NL ∉ s2) as Hnl2 by (intros ?; apply Hnl; by do 2 right).
  destruct (rstrip_split s2) as (w & E & Hw & Hm).
  destruct (summary_ahead_blank (after (Some c2) (rstrip s2)) w
              (Some (c :: c2 :: rstrip s2)) Hw) as [b' Hah].
  eexists. split.
  - unfold summary_body, LazyPlus.
    cbn [exec before rest group1 advance]. rewrite (not_nl_in c Hc).
    cbn [cset_mem]. rewrite E at 1.
    apply star_lazy_first; [apply all_in_any| |].
    + intros u v Euv Hv. cbn [before rest group1].
      rewrite summary_ahead_solid; [done| |].
      * intros Hin. apply Hnl2. rewrite E, Euv, <- app_assoc.
        apply elem_of_app. by right.
      * intros Hb. destruct Hm as [Hm|(m & d & Hm & Hd)].
        { rewrite Hm in Euv. by destruct u, v. }
        rewrite Hm in Euv.
        assert (d ∈ v ++ w) as Hdv.
        { destruct (decide (v = [])) as [->|_]; [done|].
          apply elem_of_app. left.
          assert (last (u ++ v) = Some d) as Hl by by rewrite <- Euv, last_snoc.
          rewrite last_app in Hl. destruct (last v) as [d'|] eqn:Ev.
          - injection Hl as ->. by apply last_Some_elem_of.
          - by apply last_None in Ev. }
        unfold blank in Hb. rewrite Forall_forall in Hb.
        specialize (Hb _ Hdv). congruence.
    + cbn [before rest group1].
      assert (take (length (c :: c2 :: s2) - length w) (c :: c2 :: s2)
              = c :: c2 :: rstrip s2) as ->.
      { rewrite E at 1 2. change (c :: c2 :: rstrip s2 ++ w)
          with ((c :: c2 :: rstrip s2) ++ w). apply take_consumed. }
      rewrite Hah. reflexivity.
  - done.
Qed.

Lemma exec_cat {R : Type} r1 r2 st (k : mstate -> option R) :
  exec (Cat r1 r2) st k = exec r1 st (fun st' => exec r2 st' k).
Proof. done. Qed.

Lemma exec_star {R : Type} cs b s g (k : mstate -> option R) :
  exec (Star cs) (MState b s g) k = star_greedy cs b s g k.
Proof. done. Qed.

Lemma exec_ahead {R : Type} r b s g (k : mstate -> option R) st' :
  exec r (MState b s g) Some = Some st' ->
  exec (Ahead r) (MState b s g) k = k (MState b s (group1 st')).
Proof. simpl. by intros ->. Qed.

(** ** The title pattern on the layout *)

Lemma title_re_layout (X Y : str) :
  NL ∉ X -> lstrip X <> [] ->
  re_search title_re (title_summary_layout X Y) = Some (Some (lstrip X)).
Proof.
  intros Hnl Hx. destruct (lstrip_split X) as (w & E & Hw & Hh).
  destruct (lstrip X) as [|c X1] eqn:EX; [done|]. clear Hx.
  assert (NL ∉ c :: X1) as Hnl1.
  { intros Hin. apply Hnl. rewrite E. apply elem_of_app. by right. }
  assert (exists st, exec title_re
            (MState None (title_summary_layout X Y) None) Some = Some st
          /\ group1 st = Some (c :: X1)) as (st & Hst & Hg).
  { eexists. split.
    - unfold title_summary_layout, title_re.
      rewrite exec_cat, exec_str. cbv beta. cbn [app].
      rewrite exec_cat, exec_cls by done. cbv beta.
      rewrite exec_cat, exec_star. rewrite E.
      replace (SP :: (w ++ c :: X1) ++ NL :: SUMMARY_LABEL ++ COLON :: SP :: Y)
        with ((SP :: w) ++ [] ++ c :: X1 ++ NL :: SUMMARY_LABEL ++ COLON :: SP :: Y)
        by (simpl; by rewrite <- app_assoc).
      apply star_greedy_first; [by constructor|constructor|done| |].
      + intros [|??] ? ? ?; done.
      + rewrite app_nil_l, exec_cat.
        apply exec_group_plus; [by apply all_in_not_nl|done|].
        erewrite exec_ahead by apply title_ahead_summary_line.
        reflexivity.
    - done. }
  unfold re_search. by rewrite (search_from_hit _ _ _ _ Hst), Hg.
Qed.

(** ** The summary pattern on the layout *)

Lemma starts_with_app_app (p q s : str) :
  starts_with (p ++ q) (p ++ s) = starts_with q s.
Proof. induction p as [|c p IH]; [done|]. simpl. by rewrite N.eqb_refl. Qed.

(** A prefix without the separator that starts before it ends before it. *)
Lemma starts_with_sep (q v m : str) (sep : char) :
  sep ∉ q -> starts_with q (v ++ sep :: m) = true -> starts_with q v = true.
Proof.
  revert v. induction q as [|a q IH]; intros v Hsep Hq; [done|].
  destruct v as [|b v]; simpl in *.
  - apply andb_true_iff in Hq as [Ha _]. apply N.eqb_eq in Ha as ->.
    exfalso. apply Hsep. by left.
  - apply andb_true_iff in Hq as [Ha Hq]. rewrite Ha. simpl.
    apply IH; [|done]. intros Hin. apply Hsep. by right.
Qed.

Lemma contains_false_starts (p s : str) :
  contains p s = false -> starts_with p s = false.
Proof.
  unfold contains. rewrite split_after_eq. by destruct (starts_with p s).
Qed.

Lemma contains_false_suffix (p a b : str) :
  contains p (a ++ b) = false -> contains p b = false.
Proof.
  intros H. destruct (contains p b) eqn:E; [|done].
  apply contains_inv in E as (x & y & ->).
  by rewrite app_assoc, contains_intro in H.
Qed.

(** The summary pattern matches only where the label and a colon stand. *)
Lemma summary_re_no_label {R : Type} b s g (k : mstate -> option R) :
  starts_with (SUMMARY_LABEL ++ [COLON]) s = false ->
  starts_with SUMMARY_MARK s = false ->
  exec summary_re (MState b s g) k = None.
Proof.
  intros H1 H2. unfold summary_re. rewrite exec_cat.
  destruct (starts_with SUMMARY_LABEL s) eqn:E; [|by apply exec_str_fail].
  apply starts_with_inv in E as [s' ->]. rewrite exec_str. cbv beta.
  rewrite exec_cat. change SUMMARY_MARK with (SUMMARY_LABEL ++ [WIDE_COLON]) in H2.
  rewrite starts_with_app_app in H1, H2.
  destruct s' as [|c s']; [done|]. apply exec_cls_fail.
  cbn [starts_with] in H1, H2. rewrite andb_true_r in H1, H2.
  cbn [cset_mem colon existsb].
  rewrite (N.eqb_sym c COLON), (N.eqb_sym c WIDE_COLON), H1, H2. done.
Qed.

(** Before the summary line of the layout there is nothing for the summary
    pattern to match, when the title holds no summary label. *)
Lemma summary_search_layout (X Y : str) :
  contains (SUMMARY_LABEL ++ [COLON]) X = false ->
  contains SUMMARY_MARK X = false ->
  search_from summary_re None (title_summary_layout X Y)
  = search_from summary_re (Some NL) (SUMMARY_LABEL ++ COLON :: SP :: Y).
Proof.
  intros H1 H2. unfold title_summary_layout, TITLE_LABEL. cbn [app].
  do 4 (rewrite search_from_eq, summary_re_no_label by done).
  rewrite search_from_skip.
  - rewrite search_from_eq, summary_re_no_label by done. done.
  - intros x v -> Hv. apply contains_false_suffix in H1, H2.
    apply contains_false_starts in H1, H2.
    apply summary_re_no_label.
    + destruct (starts_with _ (v ++ _)) eqn:E; [|done].
      apply starts_with_sep in E; [congruence|compute_done].
    + destruct (starts_with _ (v ++ _)) eqn:E; [|done].
      apply starts_with_sep in E; [congruence|compute_done].
Qed.

(** From the label on: the greedy [\s*] stops at the longest blank run after
    which the group and the lookahead succeed. *)
Lemma summary_re_at b (w1 w2 s : str) st :
  blank w1 -> blank w2 -> stops Space s ->
  (forall x v, w2 = x ++ v -> x <> [] ->
     exec summary_body (MState (after (after (Some COLON) w1) x) (v ++ s) None) Some
     = None) ->
  exec summary_body (MState (after (Some COLON) w1) (w2 ++ s) None) Some = Some st ->
  exec summary_re (MState b (SUMMARY_LABEL ++ COLON :: w1 ++ w2 ++ s) None) Some
  = Some st.
Proof.
  intros Hw1 Hw2 Hs Hfail Hok. rewrite summary_re_body.
  rewrite exec_cat, exec_str. cbv beta.
  rewrite exec_cat, exec_cls by done. cbv beta.
  rewrite exec_cat, exec_star.
  by apply star_greedy_first.
Qed.

Lemma group_some (g : str) : group (Some g) = g.
Proof. done. Qed.

Lemma strip_solid_pair (w z : char) :
  is_space w = true -> is_space z = false -> strip [w; z] = [z].
Proof.
  intros Hw Hz. unfold strip. simpl. rewrite Hw, Hz.
  apply (rstrip_solid [] z Hz).
Qed.

Lemma strip_lstrip_head (z1 z2 : char) (t : str) :
  is_space z1 = false ->
  strip (z1 :: z2 :: rstrip t) = rstrip (z1 :: z2 :: t).
Proof.
  intros Hz. unfold strip. rewrite lstrip_solid by done.
  apply (rstrip_idem_app [z1; z2] t).
Qed.

(** What the summary pattern captures from a summary line that ends the text
    strips to the stripped line. *)
Lemma summary_search_marker b (Y : str) :
  NL ∉ Y ->
  strip (match search_from summary_re b (SUMMARY_LABEL ++ COLON :: SP :: Y) with
         | Some m => group m
         | None => []
         end) = strip Y.
Proof.
  intros Hnl. destruct (lstrip_split Y) as (wy & E & Hwy & Hh).
  assert (strip Y = rstrip (lstrip Y)) as -> by done.
  destruct (lstrip Y) as [|z1 [|z2 Z2]].
  - (* a blank line *)
    rewrite app_nil_r in E. subst wy. rewrite rstrip_all_blank by constructor.
    destruct (decide (Y = [])) as [->|HY]; [done|].
    destruct (exists_last HY) as (Y' & w2 & ->).
    destruct (exists_last (l := SP :: Y') ltac:(done)) as (W' & w1 & EW).
    assert (blank (W' ++ [w1])) as HW by (rewrite <- EW; constructor; [done|];
      by apply Forall_app in Hwy as [? _]).
    apply Forall_app in HW as [HW' Hw1]. apply Forall_app in Hwy as [_ Hw2].
    rewrite Forall_singleton in Hw1, Hw2.
    assert (NL ∉ [w1; w2]) as Hnl2.
    { intros Hin. apply elem_of_cons in Hin as [<-|Hin].
      - destruct Y' as [|y Y']; simpl in EW.
        + destruct W' as [|? [|??]]; simplify_eq.
        + apply Hnl. apply elem_of_app. left.
          assert (NL ∈ W' ++ [NL]) as Hin by (apply elem_of_app; right; by left).
          rewrite <- EW in Hin. apply elem_of_cons in Hin as [?|?]; done.
      - apply list_elem_of_singleton in Hin as <-. apply Hnl, elem_of_app.
        right. by left. }
    destruct (summary_body_long (after (Some COLON) W') w1 w2 [] Hnl2)
      as (st & Hst & Hg).
    erewrite search_from_hit.
    + rewrite Hg, group_some. change (rstrip []) with ([] : str).
      apply strip_all_blank. by repeat constructor.
    + change (SP :: Y' ++ [w2]) with ((SP :: Y') ++ [w2]). rewrite EW, <- app_assoc.
      change ([w1] ++ [w2]) with ([w1; w2] ++ []).
      apply summary_re_at; [done|by repeat constructor|done| |done].
      intros x v Ev Hx. destruct x as [|x1 [|x2 [|??]]]; [done|..];
        simpl in Ev; simplify_eq; apply summary_body_short; simpl; lia.
  - (* one character *)
    destruct (exists_last (l := SP :: wy) ltac:(done)) as (W' & w & EW).
    assert (blank (W' ++ [w])) as HW by (rewrite <- EW; by constructor).
    apply Forall_app in HW as [HW' Hw]. rewrite Forall_singleton in Hw.
    assert (NL ∉ [w; z1]) as Hnl2.
    { intros Hin. apply elem_of_cons in Hin as [<-|Hin].
      - destruct wy as [|y wy']; simpl in EW.
        + destruct W' as [|? [|??]]; simplify_eq.
        + apply Hnl. rewrite E. apply elem_of_app. left.
          assert (NL ∈ W' ++ [NL]) as Hin by (apply elem_of_app; right; by left).
          rewrite <- EW in Hin. apply elem_of_cons in Hin as [?|?]; done.
      - apply list_elem_of_singleton in Hin as <-. apply Hnl. rewrite E.
        apply elem_of_app. right. by left. }
    destruct (summary_body_long (after (Some COLON) W') w z1 [] Hnl2)
      as (st & Hst & Hg).
    erewrite search_from_hit.
    + rewrite Hg, group_some. change (rstrip []) with ([] : str).
      rewrite strip_solid_pair; [|done|done].
      symmetry. by apply (rstrip_solid [] z1).
    + rewrite E. change (SP :: wy ++ [z1]) with ((SP :: wy) ++ [z1]).
      rewrite EW, <- app_assoc.
      apply summary_re_at; [done|by repeat constructor|done| |done].
      intros x v Ev Hx. destruct x as [|x1 [|??]]; [done|..];
        simpl in Ev; simplify_eq. apply summary_body_short; simpl; lia.
  - (* two characters or more *)
    assert (NL ∉ z1 :: z2 :: Z2) as Hnl2.
    { intros Hin. apply Hnl. rewrite E. apply elem_of_app. by right. }
    destruct (summary_body_long (after (Some COLON) (SP :: wy)) z1 z2 Z2 Hnl2)
      as (st & Hst & Hg).
    erewrite search_from_hit.
    + rewrite Hg, group_some. by apply strip_lstrip_head.
    + rewrite E at 1. change (SP :: wy ++ z1 :: z2 :: Z2)
        with ((SP :: wy) ++ [] ++ z1 :: z2 :: Z2).
      apply summary_re_at; [by constructor|constructor|done| |done].
      intros [|??] ? ? ?; done.
Qed.

Lemma strip_nil_blank (s : str) : strip s = [] -> blank s.
Proof.
  unfold strip. intros Hs.
  destruct (lstrip_split s) as (w & E & Hw & _).
  destruct (rstrip_split (lstrip s)) as (w' & E' & Hw' & _).
  rewrite Hs in E'. rewrite E, E'. by apply Forall_app.
Qed.

Lemma blank_no_mark (s : str) : blank s -> contains SUMMARY_MARK s = false.
Proof.
  intros Hs. destruct (contains SUMMARY_MARK s) eqn:E; [|done].
  apply contains_inv in E as (a & b & ->).
  apply Forall_app in Hs as [_ Hs]. apply Forall_app in Hs as [Hs _].
  by inversion Hs.
Qed.

Lemma layout_no_mark (X Y : str) :
  contains SUMMARY_MARK X = false -> blank Y ->
  contains SUMMARY_MARK (title_summary_layout X Y) = false.
Proof.
  intros HX HY. unfold title_summary_layout.
  change (TITLE_LABEL ++ [COLON; SP] ++ X ++ [NL] ++ SUMMARY_LABEL ++ [COLON; SP] ++ Y)
    with ((TITLE_LABEL ++ [COLON]) ++ SP :: X ++ NL :: (SUMMARY_LABEL ++ [COLON]) ++ SP :: Y).
  rewrite (contains_sep _ _ _ SP) by compute_done.
  rewrite (contains_sep _ X _ NL) by compute_done.
  rewrite (contains_sep _ _ Y SP) by compute_done.
  by rewrite HX, (blank_no_mark Y HY).
Qed.

(** ** extract_paper_info, field by field *)

Lemma get_some {A} (x d : A) : get (Some x) d = x.
Proof. done. Qed.

Lemma extract_title (paper_data : PaperRecord) (t : str) :
  get (r_translation paper_data) [] = t ->
  title (extract_paper_info paper_data) =
    strip (match
             match re_search title_re t with
             | Some m => Some m
             | None => re_search fallback_re t
             end
           with
           | Some m => group m
           | None => get (r_title paper_data) []
           end).
Proof. by intros <-. Qed.

Lemma extract_summary (paper_data : PaperRecord) (t : str) :
  get (r_translation paper_data) [] = t ->
  summary (extract_paper_info paper_data) =
    if bool_decide
         (strip (match re_search summary_re t with
                 | Some m => group m
                 | None => []
                 end) = [])
       && contains SUMMARY_MARK t
    then strip (default [] (split_after SUMMARY_MARK t))
    else strip (match re_search summary_re t with
                | Some m => group m
                | None => []
                end).
Proof. by intros <-. Qed.

(** * The claims *)

(** ** C2: the layout "标题: X" / "摘要: Y" *)

(** C2, as amended.  For a translation laid out as the title line "标题: X"
    followed by the summary line "摘要: Y", where X and Y are single lines,
    X is not blank and X holds no summary label ("摘要" followed by either
    colon), [extract_paper_info] returns X stripped as the title and Y
    stripped as the summary. *)
Theorem extract_layout (paper_data : PaperRecord) (X Y : str) :
  r_translation paper_data = Some (title_summary_layout X Y) ->
  NL ∉ X -> NL ∉ Y ->
  strip X <> [] ->
  contains (SUMMARY_LABEL ++ [COLON]) X = false ->
  contains SUMMARY_MARK X = false ->
  title (extract_paper_info paper_data) = strip X /\
  summary (extract_paper_info paper_data) = strip Y.
Proof.
  intros Ht HnlX HnlY HX H1 H2.
  assert (lstrip X <> []) as HlX.
  { intros E. apply HX. unfold strip. by rewrite E. }
  assert (get (r_translation paper_data) [] = title_summary_layout X Y) as Hg
    by by rewrite Ht.
  split.
  - rewrite (extract_title _ _ Hg), title_re_layout by done.
    by rewrite group_some, strip_lstrip.
  - rewrite (extract_summary _ _ Hg). unfold re_search.
    rewrite summary_search_layout by done.
    rewrite summary_search_marker by done.
    destruct (bool_decide (strip Y = [])) eqn:EY; [|done].
    apply bool_decide_eq_true in EY.
    rewrite layout_no_mark; [done|done|]. by apply strip_nil_blank.
Qed.

(** ** The matcher only finds matches *)

Lemma star_greedy_inv {R : Type} cs b s g (k : mstate -> option R) x :
  star_greedy cs b s g k = Some x ->
  exists w s', s = w ++ s' /\ all_in cs w /\ k (MState (after b w) s' g) = Some x.
Proof.
  revert b. induction s as [|c s IH]; intros b; simpl.
  - intros Hk. exists [], []. repeat split; [constructor|done].
  - destruct (cset_mem cs c) eqn:Hc.
    + destruct (star_greedy cs (Some c) s g k) as [y|] eqn:E.
      * intros [= ->]. destruct (IH _ E) as (w & s' & -> & Hw & Hk).
        exists (c :: w), s'. rewrite after_cons. repeat split; [by constructor|done].
      * intros Hk. exists [], (c :: s). repeat split; [constructor|done].
    + intros Hk. exists [], (c :: s). repeat split; [constructor|done].
Qed.

Lemma star_lazy_inv {R : Type} cs b s g (k : mstate -> option R) x :
  star_lazy cs b s g k = Some x ->
  exists w s', s = w ++ s' /\ all_in cs w /\ k (MState (after b w) s' g) = Some x.
Proof.
  revert b. induction s as [|c s IH]; intros b; simpl.
  - destruct (k (MState b [] g)) as [y|] eqn:E; [|done].
    intros [= ->]. exists [], []. repeat split; [constructor|done].
  - destruct (k (MState b (c :: s) g)) as [y|] eqn:E.
    + intros [= ->]. exists [], (c :: s). repeat split; [constructor|done].
    + destruct (cset_mem cs c) eqn:Hc; [|done].
      intros E'. destruct (IH _ E') as (w & s' & -> & Hw & Hk).
      exists (c :: w), s'. rewrite after_cons. repeat split; [by constructor|done].
Qed.

Theorem exec_sound {R : Type} r st (k : mstate -> option R) x :
  exec r st k = Some x -> exists st', matches r st st' /\ k st' = Some x.
Proof.
  revert R st k x. induction r as [p|cs|cs|cs|r1 IH1 r2 IH2|r1 IH1 r2 IH2|r IH|r IH| |];
    intros R [b s g] k x; cbn [exec before rest group1].
  - destruct (starts_with p s) eqn:E; [|done].
    apply starts_with_inv in E as [s' ->]. rewrite skip_app. intros Hk.
    eexists. split; [constructor|done].
  - destruct s as [|c s]; [done|]. destruct (cset_mem cs c) eqn:Hc; [|done].
    intros Hk. eexists. split; [by constructor|done].
  - intros (w & s' & -> & Hw & Hk)%star_greedy_inv.
    eexists. split; [by constructor|done].
  - intros (w & s' & -> & Hw & Hk)%star_lazy_inv.
    eexists. split; [by constructor|done].
  - intros (st1 & H1 & (st2 & H2 & Hk)%IH2)%IH1.
    exists st2. split; [by econstructor|done].
  - destruct (exec r1 (MState b s g) k) as [y|] eqn:E.
    + intros [= ->]. apply IH1 in E as (st' & H1 & Hk).
      exists st'. split; [by apply M_AltL|done].
    + intros (st' & H2 & Hk)%IH2. exists st'. split; [by apply M_AltR|done].
  - intros (st' & H1 & Hk)%IH. eexists. split; [|exact Hk].
    by apply (M_Group r (MState b s g) st').
  - destruct (exec r (MState b s g) Some) as [st'|] eqn:E; [|done].
    apply IH in E as (st'' & H1 & [= ->]). intros Hk.
    eexists. split; [|exact Hk]. by apply (M_Ahead r (MState b s g) st').
  - destruct b as [c|].
    + destruct (c =? NL) eqn:Hc; [|done]. apply N.eqb_eq in Hc as ->.
      intros Hk. eexists. split; [constructor; by right|done].
    + intros Hk. eexists. split; [constructor; by left|done].
  - destruct s as [|c s]; [|done]. intros Hk.
    eexists. split; [constructor|done].
Qed.

Lemma search_from_inv r b s m :
  search_from r b s = Some m ->
  exists pre s' st', s = pre ++ s'
    /\ matches r (MState (after b pre) s' None) st' /\ m = group1 st'.
Proof.
  revert b. induction s as [|c s IH]; intros b; rewrite search_from_eq.
  - destruct (exec r (MState b [] None) Some) as [st|] eqn:E; [|done].
    intros [= <-]. apply exec_sound in E as (st' & Hm & [= <-]).
    by exists [], [], st'.
  - destruct (exec r (MState b (c :: s) None) Some) as [st|] eqn:E.
    + intros [= <-]. apply exec_sound in E as (st' & Hm & [= <-]).
      by exists [], (c :: s), st'.
    + intros (pre & s' & st' & -> & Hm & ->)%IH.
      exists (c :: pre), s', st'. by rewrite after_cons.
Qed.

Ltac inv_matches :=
  repeat match goal with
  | H : matches (Cat _ _) _ _ |- _ => inversion H; clear H; subst
  | H : matches (Group _) _ _ |- _ => inversion H; clear H; subst
  | H : matches (Ahead _) _ _ |- _ => inversion H; clear H; subst
  | H : matches (Str _) _ _ |- _ => inversion H; clear H; subst
  | H : matches (Cls _) _ _ |- _ => inversion H; clear H; subst
  | H : matches (Star _) _ _ |- _ => inversion H; clear H; subst
  | H : matches (LazyStar _) _ _ |- _ => inversion H; clear H; subst
  | H : matches (Plus _) _ _ |- _ => unfold Plus in H
  | H : matches (LazyPlus _) _ _ |- _ => unfold LazyPlus in H
  | H : matches Bol _ _ |- _ => inversion H; clear H; subst
  | H : matches EndZ _ _ |- _ => inversion H; clear H; subst
  end.

Lemma colon_mem (c : char) :
  cset_mem colon c = true -> c = COLON \/ c = WIDE_COLON.
Proof.
  unfold colon. cbn [cset_mem existsb]. rewrite !orb_true_iff, !N.eqb_eq.
  intros [?|[?|?]]; [by left|by right|done].
Qed.

Lemma all_in_nl_free (w : str) : all_in (NoneOf [NL]) w -> NL ∉ w.
Proof.
  intros Hw Hin. unfold all_in in Hw. rewrite Forall_forall in Hw.
  specialize (Hw _ Hin). by vm_compute in Hw.
Qed.

Lemma after_start (pre : str) :
  after None pre = None \/ after None pre = Some NL ->
  pre = [] \/ last pre = Some NL.
Proof.
  unfold after. destruct (last pre) as [c|] eqn:E.
  - intros [?|[= ->]]; [done|by right].
  - intros _. left. by apply last_None.
Qed.

(** What a match of the fallback pattern is: a whole non-empty line, then a
    newline, whitespace, the summary label and a colon. *)
Lemma fallback_re_inv (t : str) m :
  re_search fallback_re t = Some m ->
  exists pre line ws c post,
    m = Some line
    /\ t = pre ++ line ++ [NL] ++ ws ++ SUMMARY_LABEL ++ [c] ++ post
    /\ (pre = [] \/ last pre = Some NL)
    /\ line <> [] /\ (NL ∉ line) /\ blank ws
    /\ (c = COLON \/ c = WIDE_COLON).
Proof.
  intros (pre & s' & st' & -> & Hm & ->)%search_from_inv.
  unfold fallback_re in Hm. inv_matches. cbn [rest before group1] in *. subst.
  exists pre, (c0 :: w0), w, c, s1. repeat split.
  - f_equal. change (S (length ?x)) with (length (NL :: x)).
    apply (take_consumed (c0 :: w0)).
  - by apply after_start.
  - done.
  - apply (all_in_nl_free (c0 :: w0)). by constructor.
  - done.
  - by apply colon_mem.
Qed.

(** The claim as stated fails on two layouts of its form: a title that
    itself holds "摘要:" gives the text after that label as the summary, and
    a title line without a title gives the summary line as the title. *)
Lemma extract_layout_counterexample :
  ~ (title (extract_paper_info labelled_title_record) = strip (u "论文摘要: 方法")
     /\ summary (extract_paper_info labelled_title_record) = strip (u "结果"))
  /\ ~ (title (extract_paper_info blank_title_record) = strip []
        /\ summary (extract_paper_info blank_title_record) = strip (u "结果")).
Proof. split; vm_compute; intros [? ?]; discriminate. Qed.

Lemma extract_layout_witness :
  title (extract_paper_info plain_record) = strip (u " 视觉模型 ")
  /\ summary (extract_paper_info plain_record) = strip (u "我们提出一种LLM方法 ").
Proof.
  apply (extract_layout plain_record (u " 视觉模型 ") (u "我们提出一种LLM方法 "));
    [reflexivity|compute_done|compute_done|by vm_compute|reflexivity|reflexivity].
Defined.

(** ** C3: the summary when the pattern does not match *)

(** C3.  When the summary pattern does not match the translation, the
    summary is what follows the first occurrence of the literal marker
    '摘要：', stripped, if the marker occurs in the translation, and the empty
    string if it does not. *)
Theorem summary_after_marker (paper_data : PaperRecord) :
  let t := get (r_translation paper_data) [] in
  re_search summary_re t = None ->
  (contains SUMMARY_MARK t = true ->
     exists pre tail,
       t = pre ++ SUMMARY_MARK ++ tail
       /\ split_after SUMMARY_MARK t = Some tail
       /\ summary (extract_paper_info paper_data) = strip tail)
  /\ (contains SUMMARY_MARK t = false ->
      summary (extract_paper_info paper_data) = []).
Proof.
  intros t Hs. rewrite (extract_summary paper_data t eq_refl), Hs.
  change (strip []) with ([] : str). rewrite bool_decide_eq_true_2 by done.
  split; intros Hc; rewrite Hc; [|done].
  unfold contains in Hc. destruct (split_after SUMMARY_MARK t) as [tail|] eqn:E; [|done].
  destruct (split_after_inv _ _ _ E) as [pre Ht].
  by exists pre, tail.
Qed.

Lemma summary_after_marker_witness :
  re_search summary_re (u "摘要：A") = None
  /\ summary (extract_paper_info short_summary_record) = u "A".
Proof.
  split; [reflexivity|].
  destruct (summary_after_marker short_summary_record eq_refl) as [Hin _].
  destruct (Hin eq_refl) as (pre & tail & _ & Htail & ->).
  injection Htail as <-. reflexivity.
Defined.

(** ** C4: the three title strategies *)

Lemma after_start_iff (pre : str) :
  (after None pre = None \/ after None pre = Some NL)
  <-> (pre = [] \/ last pre = Some NL).
Proof.
  split; [apply after_start|].
  unfold after. intros [-> | ->]; [by left|by right].
Qed.

(** Where the fallback pattern matches at a position: exactly in front of a
    whole non-empty line that a newline, whitespace, the label and a colon
    follow; the capture is that line. *)
Lemma fallback_exec_sound b s st :
  exec fallback_re (MState b s None) Some = Some st ->
  exists line ws c post,
    group1 st = Some line
    /\ s = line ++ [NL] ++ ws ++ SUMMARY_LABEL ++ [c] ++ post
    /\ (b = None \/ b = Some NL)
    /\ line <> [] /\ (NL ∉ line) /\ blank ws
    /\ (c = COLON \/ c = WIDE_COLON).
Proof.
  intros (st' & Hm & [= <-])%exec_sound.
  unfold fallback_re in Hm. inv_matches. cbn [rest before group1] in *. subst.
  lazymatch goal with
  | |- context [take _ (?a :: ?l ++ NL :: ?ws ++ _ :: _ :: ?c :: ?post)] =>
    rename l into line0, a into a0; exists (a0 :: line0), ws, c, post
  end.
  repeat split.
  - f_equal. change (S (length ?x)) with (length (NL :: x)).
    apply (take_consumed (a0 :: line0)).
  - done.
  - done.
  - apply (all_in_nl_free (a0 :: line0)). by constructor.
  - done.
  - by apply colon_mem.
Qed.

Lemma exec_bol {R : Type} b s g (k : mstate -> option R) :
  b = None \/ b = Some NL ->
  exec Bol (MState b s g) k = k (MState b s g).
Proof. by intros [-> | ->]. Qed.

Lemma fallback_exec_complete b line ws c post :
  b = None \/ b = Some NL ->
  line <> [] -> NL ∉ line -> blank ws -> c = COLON \/ c = WIDE_COLON ->
  exists st,
    exec fallback_re
      (MState b (line ++ [NL] ++ ws ++ SUMMARY_LABEL ++ [c] ++ post) None) Some
    = Some st
    /\ group1 st = Some line.
Proof.
  intros Hb Hline Hnl Hws Hc.
  destruct line as [|c0 w0]; [done|].
  eexists. split.
  - unfold fallback_re. rewrite exec_cat, exec_bol by done. cbv beta.
    rewrite exec_cat.
    change ((c0 :: w0) ++ ?x) with (c0 :: w0 ++ x).
    apply exec_group_plus; [by apply all_in_not_nl|done|].
    rewrite exec_cat, exec_str. cbv beta.
    rewrite exec_cat, exec_star.
    rewrite <- (app_nil_l (SUMMARY_LABEL ++ [c] ++ post)).
    apply star_greedy_first; [done|constructor|done| |].
    + intros [|??] ? ? ?; done.
    + rewrite app_nil_l, exec_cat, exec_str. cbv beta.
      cbn [app]. rewrite exec_cls; [reflexivity|].
      by destruct Hc as [-> | ->].
  - done.
Qed.

Lemma leading_line_exec t pre line :
  leading_line_at t pre line
  <-> exists s st, t = pre ++ s
        /\ exec fallback_re (MState (after None pre) s None) Some = Some st
        /\ group1 st = Some line.
Proof.
  split.
  - intros (ws & c & post & -> & Hpre & Hline & Hnl & Hws & Hc).
    apply after_start_iff in Hpre.
    destruct (fallback_exec_complete (after None pre) line ws c post)
      as (st & Hst & Hg); try done.
    by exists (line ++ [NL] ++ ws ++ SUMMARY_LABEL ++ [c] ++ post), st.
  - intros (s & st & -> & Hst & Hg).
    apply fallback_exec_sound in Hst
      as (line' & ws & c & post & Hg' & -> & Hb & Hline & Hnl & Hws & Hc).
    rewrite Hg in Hg'. injection Hg' as <-.
    exists ws, c, post. split; [done|]. split; [by apply after_start_iff|done].
Qed.

(** The search, position by position. *)

Lemma search_from_first r b s m :
  search_from r b s = Some m ->
  exists pre s' st, s = pre ++ s'
    /\ exec r (MState (after b pre) s' None) Some = Some st
    /\ m = group1 st
    /\ forall u v, pre = u ++ v -> v <> [] ->
         exec r (MState (after b u) (v ++ s') None) Some = None.
Proof.
  revert b. induction s as [|c s IH]; intros b; rewrite search_from_eq.
  - destruct (exec r (MState b [] None) Some) as [st|] eqn:E; [|done].
    intros [= <-]. exists [], [], st. repeat split; [done|].
    by intros [|??] [|??].
  - destruct (exec r (MState b (c :: s) None) Some) as [st|] eqn:E.
    + intros [= <-]. exists [], (c :: s), st. repeat split; [done|].
      by intros [|??] [|??].
    + intros (pre & s' & st & -> & Hst & -> & Hmin)%IH.
      exists (c :: pre), s', st. rewrite after_cons. repeat split; [done|].
      intros [|c' u] v Huv Hv.
      * simpl in Huv. subst v. exact E.
      * injection Huv as <- ->. rewrite after_cons. by apply Hmin.
Qed.

Lemma search_from_none r b s :
  search_from r b s = None ->
  forall pre s', s = pre ++ s' ->
    exec r (MState (after b pre) s' None) Some = None.
Proof.
  revert b. induction s as [|c s IH]; intros b; rewrite search_from_eq.
  - destruct (exec r (MState b [] None) Some) as [st|] eqn:E; [done|].
    intros _ [|??] [|??] ?; done.
  - destruct (exec r (MState b (c :: s) None) Some) as [st|] eqn:E; [done|].
    intros Hs [|c' pre] s' Hp.
    + simpl in Hp. by subst s'.
    + injection Hp as <- ->. rewrite after_cons. by apply (IH _ Hs).
Qed.

(** Of two prefixes of a text, the shorter is a prefix of the longer. *)
Lemma prefix_split (p1 s1 p2 s2 : str) :
  p1 ++ s1 = p2 ++ s2 -> (length p1 < length p2)%nat ->
  exists v, v <> [] /\ p2 = p1 ++ v /\ s1 = v ++ s2.
Proof.
  revert p2. induction p1 as [|c p1 IH]; intros [|c2 p2]; simpl; try lia.
  - intros -> _. by exists (c2 :: p2).
  - intros [= -> E] Hlt. destruct (IH p2 E ltac:(lia)) as (v & Hv & -> & ->).
    by exists v.
Qed.

Lemma prefix_same (p1 s1 p2 s2 : str) :
  p1 ++ s1 = p2 ++ s2 -> length p1 = length p2 -> p1 = p2 /\ s1 = s2.
Proof.
  revert p2. induction p1 as [|c p1 IH]; intros [|c2 p2]; simpl; try done.
  intros [= -> E] [= Hl]. by destruct (IH p2 E Hl) as [-> ->].
Qed.

(** What [re.search] finds with the fallback pattern: the leftmost leading
    line, and nothing exactly when there is no leading line. *)
Lemma fallback_search_some (t : str) m :
  re_search fallback_re t = Some m ->
  exists pre line, m = Some line /\ leftmost_leading_line t pre line.
Proof.
  intros (pre & s' & st & -> & Hst & -> & Hmin)%search_from_first.
  assert (exists line, group1 st = Some line) as [line Hg].
  { apply fallback_exec_sound in Hst as (line & ? & ? & ? & Hg & _).
    by exists line. }
  exists pre, line. split; [done|]. split.
  - apply leading_line_exec. by exists s', st.
  - intros pre' line' (s'' & st' & E & Hst' & _)%leading_line_exec.
    destruct (decide (length pre' < length pre)%nat) as [Hlt|]; [|lia].
    destruct (prefix_split _ _ _ _ (eq_sym E) Hlt) as (v & Hv & -> & ->).
    by rewrite (Hmin pre' v eq_refl Hv) in Hst'.
Qed.

Lemma fallback_search_none (t : str) :
  re_search fallback_re t = None
  <-> forall pre line, ~ leading_line_at t pre line.
Proof.
  split.
  - intros Hs pre line (s & st & -> & Hst & _)%leading_line_exec.
    by rewrite (search_from_none _ _ _ Hs pre s eq_refl) in Hst.
  - intros Hno. destruct (re_search fallback_re t) as [m|] eqn:E; [|done].
    apply fallback_search_some in E as (pre & line & _ & Hl & _).
    by destruct (Hno pre line).
Qed.

(** The leftmost leading line is unique. *)
Lemma leftmost_leading_line_unique (t pre1 line1 pre2 line2 : str) :
  leftmost_leading_line t pre1 line1 -> leftmost_leading_line t pre2 line2 ->
  pre1 = pre2 /\ line1 = line2.
Proof.
  intros [H1 Hmin1] [H2 Hmin2].
  assert (length pre1 = length pre2) as Hlen.
  { specialize (Hmin1 _ _ H2). specialize (Hmin2 _ _ H1). lia. }
  apply leading_line_exec in H1 as (s1 & st1 & E1 & Hst1 & Hg1).
  apply leading_line_exec in H2 as (s2 & st2 & E2 & Hst2 & Hg2).
  rewrite E1 in E2. destruct (prefix_same _ _ _ _ E2 Hlen) as [-> ->].
  split; [done|]. rewrite Hst1 in Hst2. injection Hst2 as <-.
  rewrite Hg1 in Hg2. by injection Hg2.
Qed.

Lemma fallback_search_leftmost (t pre line : str) :
  leftmost_leading_line t pre line ->
  re_search fallback_re t = Some (Some line).
Proof.
  intros Hl. destruct (re_search fallback_re t) as [m|] eqn:E.
  - apply fallback_search_some in E as (pre' & line' & -> & Hl').
    by destruct (leftmost_leading_line_unique _ _ _ _ _ Hl Hl') as [_ ->].
  - destruct Hl as [Hl _]. by apply fallback_search_none in Hl.
Qed.

(** C4, as amended.  The title is resolved by three strategies in order, and
    stripped: the capture of the title pattern; if that pattern does not
    match, the leftmost leading line, that is the leftmost whole non-empty
    line that is followed by a newline, whitespace (blank lines included),
    the label "摘要" and a colon; and if there is no such line, the raw
    title.  The fallback pattern matches exactly when there is a leading
    line, and then captures the leftmost one. *)
Theorem title_three_tiers (paper_data : PaperRecord) :
  let t := get (r_translation paper_data) [] in
  let result := title (extract_paper_info paper_data) in
  (forall m, re_search title_re t = Some m -> result = strip (group m))
  /\ (re_search title_re t = None ->
      forall pre line, leftmost_leading_line t pre line -> result = strip line)
  /\ (re_search title_re t = None ->
      (forall pre line, ~ leading_line_at t pre line) ->
      result = strip (get (r_title paper_data) []))
  /\ (forall m, re_search fallback_re t = Some m ->
        exists pre line, m = Some line /\ leftmost_leading_line t pre line)
  /\ (re_search fallback_re t = None
      <-> forall pre line, ~ leading_line_at t pre line).
Proof.
  intros t result. unfold result. rewrite (extract_title paper_data t eq_refl).
  split; [|split; [|split; [|split]]].
  - by intros m ->.
  - intros -> pre line Hl. by rewrite (fallback_search_leftmost t pre line Hl).
  - intros -> Hno. apply fallback_search_none in Hno. by rewrite Hno.
  - apply fallback_search_some.
  - apply fallback_search_none.
Qed.

(** The claim as stated fails where a blank line separates the leading line
    from the summary line: the title is that leading line, which is neither
    the line immediately before the summary line (an empty one) nor the raw
    title. *)
Lemma title_three_tiers_counterexample :
  title (extract_paper_info spaced_record) <> claimed_title spaced_record
  /\ title (extract_paper_info spaced_record)
     <> strip (get (r_title spaced_record) []).
Proof. split; vm_compute; discriminate. Qed.

(** On two lines that are each followed by a summary line, the title is the
    first of them. *)
Lemma title_three_tiers_witness :
  re_search title_re (get (r_translation two_lines_record) []) = None
  /\ leftmost_leading_line (get (r_translation two_lines_record) []) [] (u "A")
  /\ leading_line_at (get (r_translation two_lines_record) [])
       (u "A
摘要: x
") (u "B")
  /\ title (extract_paper_info two_lines_record) = u "A".
Proof.
  assert (leftmost_leading_line (get (r_translation two_lines_record) []) []
            (u "A")) as Hl.
  { split.
    - exists [], COLON, (u " x
B
摘要: y").
      repeat split; [by left|done|compute_done|constructor|by left].
    - intros pre' line' _. apply Nat.le_0_l. }
  split; [reflexivity|]. split; [exact Hl|]. split.
  - exists [], COLON, (u " y").
    repeat split; [by right|done|compute_done|constructor|by left].
  - destruct (title_three_tiers two_lines_record) as (_ & Hline & _).
    rewrite (Hline eq_refl [] (u "A") Hl). reflexivity.
Defined.

(** ** get_hot_topics *)

Section TopicsFacts.
Context `{PyLib}.

Lemma scan_keywords_add_once content kws topics :
  scan_keywords content kws topics
  = fold_left add_once
      (List.filter (fun kw => contains (lower kw) content) kws) topics.
Proof.
  revert topics. induction kws as [|kw kws IH]; intros topics; [done|].
  cbn [scan_keywords List.filter]. rewrite IH.
  destruct (contains (lower kw) content); [|done].
  cbn [fold_left]. unfold add_once at 3.
  by destruct (bool_decide (kw ∈ topics)).
Qed.

Lemma fold_scan_add_once kws papers topics :
  fold_left (fun topics paper => scan_keywords (content_of paper) kws topics)
    papers topics
  = fold_left add_once (flat_map (mentioned kws) papers) topics.
Proof.
  revert topics. induction papers as [|p papers IH]; intros topics; [done|].
  cbn [fold_left flat_map]. rewrite IH, fold_left_app.
  by rewrite scan_keywords_add_once.
Qed.

(** The topics are the mentioned keywords, paper after paper, each kept
    where it is first seen. *)
Lemma collect_topics_first_seen kws papers :
  collect_topics kws papers
  = fold_left add_once (flat_map (mentioned kws) papers) [].
Proof. apply fold_scan_add_once. Qed.

Lemma add_once_NoDup topics x : NoDup topics -> NoDup (add_once topics x).
Proof.
  intros Hn. unfold add_once. case_bool_decide; [done|].
  apply NoDup_app. split; [done|]. split; [|apply NoDup_singleton].
  intros y Hy ->%list_elem_of_singleton. done.
Qed.

Lemma fold_add_once_NoDup l topics :
  NoDup topics -> NoDup (fold_left add_once l topics).
Proof.
  revert topics. induction l as [|x l IH]; intros topics Hn; [done|].
  apply IH. by apply add_once_NoDup.
Qed.

Lemma elem_of_add_once topics x y :
  y ∈ add_once topics x <-> y ∈ topics \/ y = x.
Proof.
  unfold add_once. case_bool_decide.
  - split; [by left|]. by intros [?| ->].
  - rewrite elem_of_app, list_elem_of_singleton. done.
Qed.

Lemma elem_of_fold_add_once l topics y :
  y ∈ fold_left add_once l topics <-> y ∈ topics \/ y ∈ l.
Proof.
  revert topics. induction l as [|x l IH]; intros topics; cbn [fold_left].
  - rewrite elem_of_nil. tauto.
  - rewrite IH, elem_of_add_once, elem_of_cons. tauto.
Qed.

Lemma elem_of_mentioned kws paper kw :
  kw ∈ mentioned kws paper <-> kw ∈ kws /\ mentions paper kw = true.
Proof.
  unfold mentioned. rewrite !list_elem_of_In. apply filter_In.
Qed.

Lemma elem_of_collect_topics kws papers kw :
  kw ∈ collect_topics kws papers
  <-> kw ∈ kws /\ exists p, p ∈ papers /\ mentions p kw = true.
Proof.
  rewrite collect_topics_first_seen, elem_of_fold_add_once, elem_of_nil.
  rewrite list_elem_of_In, in_flat_map. split.
  - intros [[]|(p & Hp & Hkw)].
    apply list_elem_of_In, elem_of_mentioned in Hkw as [Hkw Hm].
    split; [done|]. exists p. split; [by apply list_elem_of_In|done].
  - intros (Hkw & p & Hp & Hm). right. exists p.
    split; [by apply list_elem_of_In|].
    by apply list_elem_of_In, elem_of_mentioned.
Qed.
End TopicsFacts.

(** ** C5: first-seen order *)

(** C5.  The topic list holds each keyword at most once; it holds exactly the
    keywords of the list that some paper mentions, a mention being the
    containment of the lower-cased keyword in the lower-cased title and
    summary joined by a space; and it keeps them in the order in which the
    papers first mention them: for the keyword list [A; B], a first paper
    that mentions B (and not A) and a second paper that mentions A give
    "B, A". *)
Theorem hot_topics_first_seen `{PyLib} :
  (forall kws papers, NoDup (collect_topics kws papers))
  /\ (forall kws papers kw,
        kw ∈ collect_topics kws papers
        <-> kw ∈ kws /\ exists p, p ∈ papers /\
              contains (lower kw) (lower (title p) ++ [SP] ++ lower (summary p)) = true)
  /\ (forall kws papers,
        collect_topics kws papers
        = fold_left add_once (flat_map (mentioned kws) papers) [])
  /\ (forall papers,
        get_hot_topics papers = format_topics (collect_topics keywords papers))
  /\ (forall A B p1 p2,
        A <> B ->
        mentions p1 B = true -> mentions p1 A = false -> mentions p2 A = true ->
        format_topics (collect_topics [A; B] [p1; p2]) = B ++ u ", " ++ A).
Proof.
  split; [|split; [|split; [|split]]].
  - intros kws papers. rewrite collect_topics_first_seen.
    apply fold_add_once_NoDup, NoDup_nil_2.
  - apply elem_of_collect_topics.
  - apply collect_topics_first_seen.
  - done.
  - intros A B p1 p2 HAB H1B H1A H2A. unfold collect_topics.
    cbn [fold_left scan_keywords].
    change (contains (lower A) (content_of p1)) with (mentions p1 A).
    change (contains (lower B) (content_of p1)) with (mentions p1 B).
    change (contains (lower A) (content_of p2)) with (mentions p2 A).
    change (contains (lower B) (content_of p2)) with (mentions p2 B).
    rewrite H1A, H1B, H2A. cbn [andb negb app].
    rewrite (bool_decide_eq_false_2 (B ∈ [])) by by intros ?%elem_of_nil.
    cbn [negb app].
    rewrite (bool_decide_eq_false_2 (A ∈ [B]))
      by by intros ?%list_elem_of_singleton.
    cbn [negb app].
    rewrite (bool_decide_eq_true_2 (B ∈ [B; A])) by by left.
    rewrite andb_false_r. done.
Qed.

(** With the keyword list of the source: "Vision" is seen first, so it comes
    first, although "LLM" precedes it in the list. *)
Lemma hot_topics_first_seen_witness :
  NoDup (collect_topics (H := ascii_lib) keywords
           [paper_titled "A Vision model"; paper_titled "An LLM"])
  /\ get_hot_topics (H := ascii_lib)
       [paper_titled "A Vision model"; paper_titled "An LLM"]
     = u "Vision, LLM".
Proof.
  split; [|reflexivity].
  apply (hot_topics_first_seen (H := ascii_lib)).
Defined.

(** ** C6: the default topic *)

(** The lower-cased keywords of the source hold no space. *)
Lemma keywords_lower `{PyLib} `{!LowerAscii} (kw : str) :
  kw ∈ keywords -> lower kw <> [] /\ SP ∉ lower kw.
Proof.
  intros Hkw.
  assert (Forall (fun c => is_ascii c = true) kw
          /\ map ascii_lower kw <> [] /\ SP ∉ map ascii_lower kw) as (Ha & Hn & Hs).
  { revert kw Hkw. apply Forall_forall. unfold keywords.
    repeat (apply Forall_cons; split;
            [split; [by repeat constructor|split; [done|compute_done]]|]).
    constructor. }
  by rewrite (lower_ascii kw Ha).
Qed.

(** C6.  When no keyword of the list occurs, after lower-casing, in the title
    or in the summary of any paper, [get_hot_topics] returns the default
    label '综合领域', which is not the empty string. *)
Theorem hot_topics_default `{PyLib} `{Hlower : !LowerAscii} (papers : list ExtractedPaper) :
  (forall p kw, p ∈ papers -> kw ∈ keywords ->
     contains (lower kw) (lower (title p)) = false
     /\ contains (lower kw) (lower (summary p)) = false) ->
  get_hot_topics papers = DEFAULT_TOPIC /\ DEFAULT_TOPIC <> [].
Proof.
  intros Hno. split; [|done].
  unfold get_hot_topics.
  assert (collect_topics keywords papers = []) as ->; [|done].
  apply elem_of_nil_inv. intros kw (Hkw & p & Hp & Hm)%elem_of_collect_topics.
  destruct (Hno p kw Hp Hkw) as [Ht Hs].
  destruct (keywords_lower kw Hkw) as [Hn Hsp].
  unfold mentions, content_of in Hm. cbn [app] in Hm.
  rewrite (contains_sep _ _ _ SP Hn Hsp), Ht, Hs in Hm. done.
Qed.

Lemma ascii_lib_lower : LowerAscii (H := ascii_lib).
Proof. by intros s _. Qed.

Lemma hot_topics_default_witness :
  get_hot_topics (H := ascii_lib) [paper_titled "Graph theory"] = DEFAULT_TOPIC
  /\ DEFAULT_TOPIC <> [].
Proof.
  apply (hot_topics_default (H := ascii_lib) (Hlower := ascii_lib_lower)).
  intros p kw ->%list_elem_of_singleton Hkw. revert kw Hkw.
  apply Forall_forall. by vm_compute; repeat constructor.
Defined.

(** ** generate_newsletter, case by case *)

Section RunFacts.
Context `{PyLib}.

(** The outcome of a run, by what the input file holds. *)
Lemma generate_newsletter_cases (date_str : option str) (w : World) :
  generate_newsletter date_str w =
    let d := effective_date date_str w in
    match files w !! json_path d with
    | None => (false, add_log ERROR (msg_missing d) w)
    | Some (Text _) =>
      (false, add_log ERROR (msg_failed (JSONDecodeError (json_path d))) w)
    | Some (Json (JArray (r :: l))) =>
      (true,
       add_log INFO (msg_generated (md_path_of d))
         (put_file (html_path_of d) (generate_html (rendered_md d (r :: l)) d)
            (put_file (md_path_of d) (rendered_md d (r :: l))
               (if bool_decide (is_Some (files w !! stats_path)) then w
                else add_log WARNING msg_no_stats w))))
    | Some (Json _) => (false, add_log INFO (msg_skip d) w)
    end.
Proof.
  unfold generate_newsletter. cbv zeta.
  generalize (effective_date date_str w). intros d.
  unfold try_except, newsletter_body, os_path_exists, json_load.
  unfold mbind, M_bind, mret, M_ret, logger, write_file, os_makedirs.
  cbv zeta.
  destruct (files w !! json_path d) as [[v|s]|] eqn:E; [| |reflexivity].
  - change (bool_decide (is_Some (Some (Json v)))) with true.
    cbn [negb]. rewrite E.
    destruct v as [| | | | |[|r l]]; try reflexivity.
    cbn [is_list items negb orb length Nat.eqb map].
    by destruct (bool_decide (is_Some (files w !! stats_path))).
  - change (bool_decide (is_Some (Some (Text s)))) with true.
    cbn [negb]. by rewrite E.
Qed.
End RunFacts.

Section RunClaims.
Context `{PyLib}.

Lemma effective_date_explicit (d : str) (w : World) :
  d <> [] -> effective_date (Some d) w = d.
Proof. by destruct d. Qed.

(** The template writes both image links whatever the context holds. *)
Lemma rendered_md_links (d : str) (papers_data : list PaperRecord) :
  contains WORDCLOUD_LINK (rendered_md d papers_data) = true
  /\ contains TREND_LINK (rendered_md d papers_data) = true.
Proof.
  unfold rendered_md. cbv zeta.
  split; do 8 apply contains_app_r; by apply contains_app_l.
Qed.

(** ** C1: a run without the statistics file *)

(** C1, the part that holds and the part that fails.  A run over an input
    with at least one record and without the statistics file succeeds and
    writes the Markdown and the HTML file; but the Markdown it writes holds
    both image links, as it does when the statistics file is there: the
    template does not read [wordcloud_path] and [trend_path]. *)
Theorem stats_absent_links_remain (date_str : option str) (w : World)
    (r : PaperRecord) (l : list PaperRecord) :
  let d := effective_date date_str w in
  files w !! json_path d = Some (Json (JArray (r :: l))) ->
  files w !! stats_path = None ->
  let out := generate_newsletter date_str w in
  fst out = true
  /\ exists md html,
       files (snd out)
       = <[html_path_of d := Text html]> (<[md_path_of d := Text md]> (files w))
       /\ contains WORDCLOUD_LINK md = true
       /\ contains TREND_LINK md = true.
Proof.
  intros d Hin Hstats out. unfold out.
  rewrite generate_newsletter_cases. cbv zeta. fold d. rewrite Hin, Hstats.
  split; [done|].
  exists (rendered_md d (r :: l)), (generate_html (rendered_md d (r :: l)) d).
  split; [done|]. apply rendered_md_links.
Qed.

(** ** C7: no input file *)

(** C7.  When the input file of the date does not exist, the run logs an
    error and returns [False]; it raises nothing and writes no file. *)
Theorem missing_input_fails (date_str : option str) (w : World) :
  let d := effective_date date_str w in
  files w !! json_path d = None ->
  generate_newsletter date_str w = (false, add_log ERROR (msg_missing d) w)
  /\ files (snd (generate_newsletter date_str w)) = files w.
Proof.
  intros d Hin. rewrite generate_newsletter_cases. cbv zeta. fold d.
  by rewrite Hin.
Qed.

(** ** C8: no data *)

(** C8.  When the input file parses to a value that is not a list, or to the
    empty list, the run returns [False] and writes no file, and what it logs
    is an informational message, not an error. *)
Theorem no_data_skips (date_str : option str) (w : World) (v : json) :
  let d := effective_date date_str w in
  files w !! json_path d = Some (Json v) ->
  is_list v = false \/ items v = [] ->
  generate_newsletter date_str w = (false, add_log INFO (msg_skip d) w)
  /\ files (snd (generate_newsletter date_str w)) = files w.
Proof.
  intros d Hin Hv. rewrite generate_newsletter_cases. cbv zeta. fold d.
  rewrite Hin. by destruct v as [| | | | |[|r l]], Hv.
Qed.

(** ** C10: the extraction is never empty *)

(** C10.  The extraction of a non-empty list of records has the length of
    the list, so it is not empty; and no run takes the branch that logs
    that nothing was extracted. *)
Theorem extraction_never_empty :
  (forall papers_data : list PaperRecord,
     papers_data <> [] ->
     length (map extract_paper_info papers_data) = length papers_data
     /\ map extract_paper_info papers_data <> [])
  /\ (forall (date_str : option str) (w : World),
        exists new,
          logs (snd (generate_newsletter date_str w)) = logs w ++ new
          /\ (WARNING, msg_nothing_extracted) ∉ new).
Proof.
  split.
  - intros papers_data Hne. split; [apply length_map|].
    by destruct papers_data.
  - intros date_str w. rewrite generate_newsletter_cases. cbv zeta.
    destruct (files w !! json_path _) as [[[| | | | |[|r l]]|s]|];
      try (eexists; split; [done|]; by intros [=]%list_elem_of_singleton).
    destruct (bool_decide (is_Some (files w !! stats_path)));
      cbn [snd logs add_log put_file].
    + eexists; split; [done|]. by intros [=]%list_elem_of_singleton.
    + rewrite <- app_assoc. eexists; split; [done|].
      intros [E|[=]%list_elem_of_singleton]%elem_of_cons.
      by vm_compute in E.
Qed.
End RunClaims.

Lemma stats_absent_links_remain_witness :
  files one_record_world !! stats_path = None
  /\ fst (generate_newsletter (H := ascii_lib) (Some example_date) one_record_world)
     = true
  /\ exists md html,
       files (snd (generate_newsletter (H := ascii_lib) (Some example_date)
                     one_record_world))
       = <[html_path_of example_date := Text html]>
           (<[md_path_of example_date := Text md]> (files one_record_world))
       /\ contains WORDCLOUD_LINK md = true
       /\ contains TREND_LINK md = true.
Proof.
  split; [reflexivity|].
  apply (stats_absent_links_remain (H := ascii_lib) (Some example_date)
           one_record_world example_record []); reflexivity.
Defined.

Lemma missing_input_fails_witness :
  generate_newsletter (H := ascii_lib) (Some example_date) empty_world
  = (false, add_log ERROR (msg_missing example_date) empty_world)
  /\ files (snd (generate_newsletter (H := ascii_lib) (Some example_date)
                   empty_world))
     = files empty_world.
Proof.
  apply (missing_input_fails (H := ascii_lib) (Some example_date) empty_world).
  reflexivity.
Defined.

Lemma no_data_skips_witness :
  generate_newsletter (H := ascii_lib) (Some example_date) no_data_world
  = (false, add_log INFO (msg_skip example_date) no_data_world)
  /\ files (snd (generate_newsletter (H := ascii_lib) (Some example_date)
                   no_data_world))
     = files no_data_world.
Proof.
  apply (no_data_skips (H := ascii_lib) (Some example_date) no_data_world
           (JArray [])); [reflexivity|by right].
Defined.

Lemma extraction_never_empty_witness :
  length (map extract_paper_info [example_record]) = 1%nat
  /\ map extract_paper_info [example_record] <> [].
Proof.
  apply (proj1 (extraction_never_empty (H := ascii_lib)) [example_record]).
  discriminate.
Defined.

(** ** The model on concrete inputs *)

Example utf8_labels :
  u "标题" = [26631; 39064] /\ u "摘要：" = [25688; 35201; 65306]
  /\ u "📊" = [128202].
Proof. by vm_compute. Qed.

Example strip_example : strip (u "  a b 	") = u "a b".
Proof. reflexivity. Qed.

Example title_pattern_example :
  re_search title_re (title_summary_layout (u "X") (u "Y")) = Some (Some (u "X"))
  /\ re_search title_re (u "no label") = None.
Proof. by vm_compute. Qed.

Example summary_pattern_example :
  re_search summary_re (u "摘要: first
second
Note: third") = Some (Some (u "first
second")).
Proof. by vm_compute. Qed.

Example extract_example :
  extract_paper_info example_record =
    {| title := u "视觉模型"; original_title := u "Vision Models";
       summary := u "我们提出一种LLM方法";
       paper_url := u "https://huggingface.co/papers/1";
       arxiv_url := u "https://arxiv.org/abs/1";
       code_url := u "https://github.com/x/y" |}.
Proof. by vm_compute. Qed.

Example paths_example :
  json_path example_date = u "HF-day-paper-deepseek/2024-01-01_HF_deepseek_clean.json"
  /\ md_path_of example_date = u "newsletters/2024-01-01_daily_paper.md"
  /\ html_path_of example_date = u "newsletters/2024-01-01_daily_paper.html"
  /\ stats_path = u "stats/stats_report.json".
Proof. by vm_compute. Qed.

(** * Further properties *)

(** ** Paths *)

Lemma os_path_join_ends (a b : str) : exists pre, os_path_join a b = pre ++ b.
Proof.
  unfold os_path_join. destruct (starts_with [47] b); [by exists []|].
  destruct (_ || _); [by exists a|]. exists (a ++ [47]). by rewrite <- app_assoc.
Qed.

Lemma last_os_path_join (a d suffix : str) (c : char) :
  last suffix = Some c -> last (os_path_join a (d ++ suffix)) = Some c.
Proof.
  intros Hc. destruct (os_path_join_ends a (d ++ suffix)) as [pre ->].
  by rewrite !last_app, Hc.
Qed.

Lemma last_stats_path : last stats_path = Some 110.
Proof. reflexivity. Qed.

Lemma last_json_path d : last (json_path d) = Some 110.
Proof. by apply last_os_path_join. Qed.

Lemma last_md_path d : last (md_path_of d) = Some 100.
Proof. by apply last_os_path_join. Qed.

Lemma last_html_path d : last (html_path_of d) = Some 108.
Proof. by apply last_os_path_join. Qed.

Lemma md_html_paths_differ d : md_path_of d <> html_path_of d.
Proof.
  intros E. assert (E' := last_md_path d). rewrite E, last_html_path in E'.
  discriminate.
Qed.

(** Under a relative directory name, [os.path.join] keeps apart the files of
    different dates. *)
Lemma os_path_join_inj (a suffix d1 d2 : str) :
  a <> [] -> head a <> Some 47 -> last a <> Some 47 ->
  os_path_join a (d1 ++ suffix) = os_path_join a (d2 ++ suffix) -> d1 = d2.
Proof.
  intros Ha Hh Hl. unfold os_path_join.
  rewrite (bool_decide_eq_false_2 (a = [])) by done.
  rewrite (bool_decide_eq_false_2 (last a = Some 47)) by done.
  cbn [orb].
  assert (forall b, starts_with [47] (a ++ [47] ++ b) = false) as Hrel.
  { intros b. destruct a as [|c a]; [done|]. cbn [app starts_with].
    destruct (N.eqb_spec 47 c) as [<-|]; [|done]. by destruct Hh. }
  destruct (starts_with [47] (d1 ++ suffix)) eqn:E1,
           (starts_with [47] (d2 ++ suffix)) eqn:E2; intros E.
  - by apply app_inv_tail in E.
  - rewrite E, Hrel in E1. discriminate.
  - rewrite <- E, Hrel in E2. discriminate.
  - apply app_inv_head in E. by apply app_inv_head, app_inv_tail in E.
Qed.

Section RunExtras.
Context `{PyLib}.

(** ** Outcomes of a run *)

(** X1.  When [json.load] raises on the input file, the exception does not
    leave [generate_newsletter]: the run returns [False], logs the exception
    as an error, and writes nothing. *)
Theorem broken_input_fails (date_str : option str) (w : World) (text : str) :
  let d := effective_date date_str w in
  files w !! json_path d = Some (Text text) ->
  generate_newsletter date_str w
  = (false, add_log ERROR (msg_failed (JSONDecodeError (json_path d))) w)
  /\ files (snd (generate_newsletter date_str w)) = files w.
Proof.
  intros d Hin. rewrite generate_newsletter_cases. cbv zeta. fold d.
  by rewrite Hin.
Qed.

Lemma run_success_inv (date_str : option str) (w : World) :
  fst (generate_newsletter date_str w) = true ->
  exists r l,
    files w !! json_path (effective_date date_str w)
    = Some (Json (JArray (r :: l))).
Proof.
  rewrite generate_newsletter_cases. cbv zeta.
  destruct (files w !! json_path _) as [[[| | | | |[|r l]]|s]|]; cbn [fst];
    try done.
  intros _. by exists r, l.
Qed.

Lemma run_success_intro (date_str : option str) (w : World) r l :
  files w !! json_path (effective_date date_str w)
  = Some (Json (JArray (r :: l))) ->
  fst (generate_newsletter date_str w) = true.
Proof.
  intros Hin. rewrite generate_newsletter_cases. cbv zeta. by rewrite Hin.
Qed.

(** What a successful run writes. *)
Lemma success_files (date_str : option str) (w : World) r l :
  let d := effective_date date_str w in
  files w !! json_path d = Some (Json (JArray (r :: l))) ->
  fst (generate_newsletter date_str w) = true
  /\ files (snd (generate_newsletter date_str w))
     = <[html_path_of d := Text (generate_html (rendered_md d (r :: l)) d)]>
         (<[md_path_of d := Text (rendered_md d (r :: l))]> (files w)).
Proof.
  intros d Hin. rewrite generate_newsletter_cases. cbv zeta. fold d.
  rewrite Hin. split; [done|].
  by destruct (bool_decide (is_Some (files w !! stats_path))).
Qed.

Lemma failure_files (date_str : option str) (w : World) :
  fst (generate_newsletter date_str w) = false ->
  files (snd (generate_newsletter date_str w)) = files w.
Proof.
  rewrite generate_newsletter_cases. cbv zeta.
  by destruct (files w !! json_path _) as [[[| | | | |[|r l]]|s]|].
Qed.

(** A run leaves every file but its two outputs as it was. *)
Lemma run_other_files (date_str : option str) (w : World) (path : str) :
  let d := effective_date date_str w in
  path <> md_path_of d -> path <> html_path_of d ->
  files (snd (generate_newsletter date_str w)) !! path = files w !! path.
Proof.
  intros d H1 H2. destruct (fst (generate_newsletter date_str w)) eqn:E.
  - apply run_success_inv in E as (r & l & Hin).
    destruct (success_files date_str w r l Hin) as [_ ->]. fold d.
    by rewrite !lookup_insert_ne.
  - by rewrite failure_files.
Qed.

Lemma json_path_not_output (d d' : str) :
  json_path d' <> md_path_of d /\ json_path d' <> html_path_of d.
Proof.
  split; intros E; assert (E' := last_json_path d'); rewrite E in E'.
  - rewrite last_md_path in E'. discriminate.
  - rewrite last_html_path in E'. discriminate.
Qed.

Lemma stats_path_not_output (d : str) :
  stats_path <> md_path_of d /\ stats_path <> html_path_of d.
Proof.
  split; intros E; assert (E' := last_stats_path); rewrite E in E'.
  - rewrite last_md_path in E'. discriminate.
  - rewrite last_html_path in E'. discriminate.
Qed.

(** X4.  No run changes an input file, of whatever date, or the statistics
    file. *)
Theorem inputs_untouched (date_str : option str) (w : World) (d' : str) :
  files (snd (generate_newsletter date_str w)) !! json_path d'
  = files w !! json_path d'
  /\ files (snd (generate_newsletter date_str w)) !! stats_path
     = files w !! stats_path.
Proof.
  split.
  - apply run_other_files; apply json_path_not_output.
  - apply run_other_files; apply stats_path_not_output.
Qed.

(** X5.  Running again on the world that a run leaves gives the same result
    and leaves the same files: the second run overwrites the two outputs with
    the same text. *)
Theorem rerun_idempotent (date_str : option str) (w : World) :
  let out1 := generate_newsletter date_str w in
  let out2 := generate_newsletter date_str (snd out1) in
  fst out2 = fst out1 /\ files (snd out2) = files (snd out1).
Proof.
  intros out1 out2. unfold out2, out1.
  assert (today (snd (generate_newsletter date_str w)) = today w) as Htoday.
  { rewrite generate_newsletter_cases. cbv zeta.
    destruct (files w !! json_path _) as [[[| | | | |[|r l]]|s]|]; try done.
    by destruct (bool_decide _). }
  assert (effective_date date_str (snd (generate_newsletter date_str w))
          = effective_date date_str w) as Hd.
  { unfold effective_date. by rewrite Htoday. }
  assert (files (snd (generate_newsletter date_str w))
            !! json_path (effective_date date_str w)
          = files w !! json_path (effective_date date_str w)) as Hin
    by (apply run_other_files; apply json_path_not_output).
  destruct (fst (generate_newsletter date_str w)) eqn:E.
  - apply run_success_inv in E as (r & l & Hr).
    assert (files (snd (generate_newsletter date_str w))
              !! json_path (effective_date date_str (snd (generate_newsletter date_str w)))
            = Some (Json (JArray (r :: l)))) as Hr2 by by rewrite Hd, Hin.
    destruct (success_files _ _ r l Hr2) as [-> ->]. split; [done|].
    rewrite Hd. destruct (success_files _ _ r l Hr) as [_ ->].
    apply map_eq. intros path.
    destruct (decide (path = html_path_of (effective_date date_str w))) as [->|?].
    { by rewrite !lookup_insert_eq. }
    rewrite !(lookup_insert_ne _ (html_path_of _)) by done.
    destruct (decide (path = md_path_of (effective_date date_str w))) as [->|?].
    { by rewrite !lookup_insert_eq. }
    rewrite !(lookup_insert_ne _ (md_path_of _)) by done.
    by rewrite !lookup_insert_ne.
  - assert (fst (generate_newsletter date_str (snd (generate_newsletter date_str w)))
            = false) as E2.
    { destruct (fst (generate_newsletter date_str (snd _))) eqn:E2; [|done].
      apply run_success_inv in E2 as (r & l & Hr). rewrite Hd, Hin in Hr.
      assert (fst (generate_newsletter date_str w) = true) as E'
        by by eapply run_success_intro.
      congruence. }
    split; [done|]. by apply failure_files.
Qed.

End RunExtras.

Lemma broken_input_fails_witness :
  generate_newsletter (H := ascii_lib) (Some example_date) broken_world
  = (false,
     add_log ERROR (msg_failed (JSONDecodeError (json_path example_date)))
       broken_world)
  /\ files (snd (generate_newsletter (H := ascii_lib) (Some example_date)
                   broken_world))
     = files broken_world.
Proof.
  apply (broken_input_fails (H := ascii_lib) (Some example_date) broken_world
           (u "{not json")).
  reflexivity.
Defined.

(** ** What the extractor returns *)

Lemma strip_trimmed (s : str) : trimmed (strip s).
Proof.
  unfold strip. destruct (lstrip_split s) as (w & _ & _ & Hh).
  destruct (rstrip_split (lstrip s)) as (w' & E & _ & Hl).
  split.
  - intros c t Hc. rewrite Hc in E. rewrite E in Hh. exact Hh.
  - intros t c Hc. destruct Hl as [Hl|(m & c' & Hl & Hc')]; rewrite Hl in Hc.
    + by destruct t.
    + by apply app_inj_tail in Hc as [_ ->].
Qed.

Lemma trimmed_strip (s : str) : trimmed s -> strip s = s.
Proof.
  intros [Hh Hl]. unfold strip.
  assert (lstrip s = s) as ->.
  { destruct s as [|c t]; [done|]. apply lstrip_solid. by eapply Hh. }
  destruct s as [|c t] using rev_ind; [done|].
  apply rstrip_solid. by eapply Hl.
Qed.

Lemma strip_idem (s : str) : strip (strip s) = strip s.
Proof. apply trimmed_strip, strip_trimmed. Qed.

(** X8.  The title and the summary that [extract_paper_info] returns carry no
    whitespace at either end, whichever strategy produced them; stripping
    them again changes nothing. *)
Theorem extracted_fields_trimmed (paper_data : PaperRecord) :
  let paper := extract_paper_info paper_data in
  trimmed (title paper) /\ trimmed (summary paper)
  /\ strip (title paper) = title paper /\ strip (summary paper) = summary paper.
Proof.
  intros paper. unfold paper.
  assert (trimmed (title (extract_paper_info paper_data))) as Ht.
  { rewrite (extract_title paper_data _ eq_refl). apply strip_trimmed. }
  assert (trimmed (summary (extract_paper_info paper_data))) as Hs.
  { rewrite (extract_summary paper_data _ eq_refl).
    destruct (_ && _); apply strip_trimmed. }
  split; [done|]. split; [done|]. split; by apply trimmed_strip.
Qed.

(** ** What the matches of the patterns are *)

Lemma matches_group_free r st st' :
  group_free r = true -> matches r st st' -> group1 st' = group1 st.
Proof.
  intros Hr Hm. induction Hm; cbn [group_free] in Hr; try done.
  - apply andb_true_iff in Hr as [H1 H2]. by rewrite IHHm2, IHHm1.
  - apply andb_true_iff in Hr as [H1 H2]. by apply IHHm.
  - apply andb_true_iff in Hr as [H1 H2]. by apply IHHm.
  - cbn [group1]. by apply IHHm.
Qed.

(** A match of the title pattern: the label "标题", a colon, whitespace, and
    the capture, which is not empty and holds no newline. *)
Lemma title_re_inv (t : str) m :
  re_search title_re t = Some m ->
  exists pre c ws g post,
    m = Some g
    /\ t = pre ++ TITLE_LABEL ++ [c] ++ ws ++ g ++ post
    /\ (c = COLON \/ c = WIDE_COLON) /\ blank ws
    /\ g <> [] /\ (NL ∉ g).
Proof.
  intros (pre & s' & st' & -> & Hm & ->)%search_from_inv.
  unfold title_re in Hm. inv_matches. cbn [rest before group1] in *. subst.
  match goal with Ha : matches title_ahead _ _ |- _ =>
    apply matches_group_free in Ha; [|done]; cbn [group1] in Ha; rewrite Ha end.
  lazymatch goal with
  | |- context [pre ++ _ :: _ :: ?c :: ?w ++ ?c0 :: ?w0 ++ ?s = _] =>
    exists pre, c, w, (c0 :: w0), s; repeat split;
      [f_equal; apply (take_consumed (c0 :: w0))
      |by apply colon_mem|done|done
      |apply (all_in_nl_free (c0 :: w0)); by constructor]
  end.
Qed.

(** A match of the summary pattern: the label "摘要", a colon, whitespace,
    and the capture, which has two characters at least and does not start
    with a newline. *)
Lemma summary_re_inv (t : str) m :
  re_search summary_re t = Some m ->
  exists pre c ws c1 c2 g post,
    m = Some (c1 :: c2 :: g)
    /\ t = pre ++ SUMMARY_LABEL ++ [c] ++ ws ++ (c1 :: c2 :: g) ++ post
    /\ (c = COLON \/ c = WIDE_COLON) /\ blank ws /\ c1 <> NL.
Proof.
  intros (pre & s' & st' & -> & Hm & ->)%search_from_inv.
  unfold summary_re in Hm. inv_matches. cbn [rest before group1] in *. subst.
  match goal with Ha : matches summary_ahead _ _ |- _ =>
    apply matches_group_free in Ha; [|done]; cbn [group1] in Ha; rewrite Ha end.
  lazymatch goal with
  | |- context [pre ++ _ :: _ :: ?c :: ?w ++ ?c0 :: ?c1 :: ?w0 ++ ?s = _] =>
    exists pre, c, w, c0, c1, w0, s; repeat split;
      [f_equal; apply (take_consumed (c0 :: c1 :: w0))
      |by apply colon_mem|done|by intros ->]
  end.
Qed.

(** X9.  In every match of the three patterns group 1 has taken part and
    holds at least one character, so [m.group(1)] is a string and
    [.strip()] on it cannot fail. *)
Theorem group_always_set (t : str) (m : option str) :
  re_search title_re t = Some m \/ re_search summary_re t = Some m
  \/ re_search fallback_re t = Some m ->
  exists g, m = Some g /\ g <> [].
Proof.
  intros [Hm|[Hm|Hm]].
  - apply title_re_inv in Hm as (? & ? & ? & g & ? & -> & _ & _ & _ & Hg & _).
    by exists g.
  - apply summary_re_inv in Hm as (? & ? & ? & c1 & c2 & g & ? & -> & _).
    by exists (c1 :: c2 :: g).
  - apply fallback_re_inv in Hm as (? & g & ? & ? & ? & -> & _ & _ & Hg & _).
    by exists g.
Qed.

Lemma group_always_set_witness :
  exists g, Some (u "My Title") = Some g /\ g <> [].
Proof.
  apply (group_always_set (u "My Title
摘要: foo") (Some (u "My Title"))).
  right. right. reflexivity.
Defined.

Lemma strip_infix (s : str) : exists w w', s = w ++ strip s ++ w'.
Proof.
  unfold strip. destruct (lstrip_split s) as (w & E & _ & _).
  destruct (rstrip_split (lstrip s)) as (w' & E' & _ & _).
  exists w, w'. by rewrite <- E', <- E.
Qed.

Lemma strip_no_nl (s : str) : NL ∉ s -> NL ∉ strip s.
Proof.
  intros Hs Hin. apply Hs. destruct (strip_infix s) as (w & w' & ->).
  apply elem_of_app. right. apply elem_of_app. by left.
Qed.

(** X10.  A title that comes from one of the two patterns is a single line:
    when the title pattern or the fallback pattern matches the translation,
    the title returned holds no newline. *)
Theorem pattern_title_single_line (paper_data : PaperRecord) :
  let t := get (r_translation paper_data) [] in
  re_search title_re t <> None \/ re_search fallback_re t <> None ->
  NL ∉ title (extract_paper_info paper_data).
Proof.
  intros t Hm. rewrite (extract_title paper_data t eq_refl).
  apply strip_no_nl.
  destruct (re_search title_re t) as [m|] eqn:E1.
  - apply title_re_inv in E1 as (? & ? & ? & g & ? & -> & _ & _ & _ & _ & Hg).
    by rewrite group_some.
  - destruct Hm as [?|Hm]; [done|].
    destruct (re_search fallback_re t) as [m|] eqn:E2; [|done].
    apply fallback_re_inv in E2 as (? & g & ? & ? & ? & -> & _ & _ & _ & Hg & _).
    by rewrite group_some.
Qed.

Lemma pattern_title_single_line_witness :
  NL ∉ title (extract_paper_info leading_line_record).
Proof.
  apply (pattern_title_single_line leading_line_record).
  right. discriminate.
Defined.

Lemma contains_prefix_false (p q s : str) :
  contains p s = false -> contains (p ++ q) s = false.
Proof.
  intros Hp. destruct (contains (p ++ q) s) eqn:E; [|done].
  apply contains_inv in E as (a & b & ->).
  by rewrite <- app_assoc, contains_intro in Hp.
Qed.

Lemma title_re_needs_label (t : str) :
  contains TITLE_LABEL t = false -> re_search title_re t = None.
Proof.
  intros Hc. destruct (re_search title_re t) as [m|] eqn:E; [|done].
  apply title_re_inv in E as (? & ? & ? & ? & ? & _ & -> & _).
  by rewrite contains_intro in Hc.
Qed.

Lemma summary_re_needs_label (t : str) :
  contains SUMMARY_LABEL t = false -> re_search summary_re t = None.
Proof.
  intros Hc. destruct (re_search summary_re t) as [m|] eqn:E; [|done].
  apply summary_re_inv in E as (? & ? & ? & ? & ? & ? & ? & _ & -> & _).
  by rewrite contains_intro in Hc.
Qed.

Lemma fallback_re_needs_label (t : str) :
  contains SUMMARY_LABEL t = false -> re_search fallback_re t = None.
Proof.
  intros Hc. destruct (re_search fallback_re t) as [m|] eqn:E; [|done].
  apply fallback_re_inv in E as (pre & line & ws & c & post & _ & -> & _).
  replace (pre ++ line ++ [NL] ++ ws ++ SUMMARY_LABEL ++ [c] ++ post)
    with ((pre ++ line ++ [NL] ++ ws) ++ SUMMARY_LABEL ++ [c] ++ post) in Hc
    by by rewrite <- !app_assoc.
  by rewrite contains_intro in Hc.
Qed.

(** X11.  Without the label "摘要" in the translation the summary is empty,
    and without either label the title is the raw title, stripped; so for a
    record with no translation at all. *)
Theorem unlabelled_translation (paper_data : PaperRecord) :
  let t := get (r_translation paper_data) [] in
  let paper := extract_paper_info paper_data in
  (contains SUMMARY_LABEL t = false -> summary paper = [])
  /\ (contains TITLE_LABEL t = false -> contains SUMMARY_LABEL t = false ->
      title paper = strip (get (r_title paper_data) []))
  /\ (r_translation paper_data = None ->
      title paper = strip (get (r_title paper_data) []) /\ summary paper = []).
Proof.
  intros t paper. unfold paper.
  assert (contains SUMMARY_LABEL t = false ->
          summary (extract_paper_info paper_data) = []) as Hs.
  { intros Hc. rewrite (extract_summary paper_data t eq_refl).
    rewrite summary_re_needs_label by done.
    change SUMMARY_MARK with (SUMMARY_LABEL ++ [WIDE_COLON]).
    by rewrite contains_prefix_false, andb_false_r. }
  assert (contains TITLE_LABEL t = false -> contains SUMMARY_LABEL t = false ->
          title (extract_paper_info paper_data)
          = strip (get (r_title paper_data) [])) as Ht.
  { intros H1 H2. rewrite (extract_title paper_data t eq_refl).
    by rewrite title_re_needs_label, fallback_re_needs_label. }
  split; [done|]. split; [done|].
  intros Hn. assert (t = []) as Et by (unfold t; by rewrite Hn).
  split; [apply Ht|apply Hs]; by rewrite Et.
Qed.

Lemma unlabelled_translation_witness :
  summary (extract_paper_info unlabelled_record) = []
  /\ title (extract_paper_info unlabelled_record) = u "Raw Title"
  /\ title (extract_paper_info untranslated_record) = u "Raw Title"
  /\ summary (extract_paper_info untranslated_record) = [].
Proof.
  destruct (unlabelled_translation unlabelled_record) as (Hs & Ht & _).
  destruct (unlabelled_translation untranslated_record) as (_ & _ & Hn).
  split; [by apply Hs|]. split; [by rewrite Ht|].
  destruct (Hn eq_refl) as [-> ->]. done.
Defined.

(** X12.  A summary of a single character that follows the label directly
    is lost after the ASCII colon and kept after the full-width colon: the
    pattern needs two characters, and the literal marker that is looked for
    when it fails is '摘要：' only. *)
Theorem one_character_summary (paper_data : PaperRecord) (c : char) :
  is_space c = false ->
  (r_translation paper_data = Some (SUMMARY_LABEL ++ [COLON; c]) ->
   summary (extract_paper_info paper_data) = [])
  /\ (r_translation paper_data = Some (SUMMARY_MARK ++ [c]) ->
      summary (extract_paper_info paper_data) = [c]).
Proof.
  intros Hc.
  assert (forall c', re_search summary_re (SUMMARY_LABEL ++ [c'; c]) = None) as Hno.
  { intros c'. destruct (re_search summary_re _) as [m|] eqn:E; [|done].
    apply summary_re_inv in E as (pre & ? & ws & ? & ? & g & post & _ & E & _).
    apply (f_equal length) in E. rewrite !length_app in E. simpl in E. lia. }
  split; intros Ht.
  - rewrite (extract_summary paper_data (SUMMARY_LABEL ++ [COLON; c]))
      by by rewrite Ht.
    rewrite Hno.
    assert (contains SUMMARY_MARK (SUMMARY_LABEL ++ [COLON; c]) = false) as ->.
    { unfold contains, SUMMARY_MARK, SUMMARY_LABEL. cbn.
      by rewrite andb_false_r. }
    by rewrite andb_false_r.
  - rewrite (extract_summary paper_data (SUMMARY_MARK ++ [c])) by by rewrite Ht.
    assert (Hw := Hno WIDE_COLON).
    change (SUMMARY_LABEL ++ [WIDE_COLON; c]) with (SUMMARY_MARK ++ [c]) in Hw.
    assert (Hin := contains_intro SUMMARY_MARK [] [c]).
    change ([] ++ SUMMARY_MARK ++ [c]) with (SUMMARY_MARK ++ [c]) in Hin.
    rewrite Hw, Hin, split_after_here.
    change (strip []) with ([] : str).
    rewrite bool_decide_eq_true_2 by done. cbn [andb].
    change (default [] (Some [c])) with [c].
    apply trimmed_strip. split.
    + by intros ? ? [= <- _].
    + intros [|??] ? E; simplify_eq/=; [done|]. by destruct l.
Qed.

Lemma one_character_summary_witness :
  summary (extract_paper_info short_summary_record) = [65].
Proof.
  apply (proj2 (one_character_summary short_summary_record 65 eq_refl)).
  reflexivity.
Defined.

(** ** More on the topics *)

Lemma fold_add_once_extends (l topics : list str) :
  exists more, fold_left add_once l topics = topics ++ more.
Proof.
  revert topics. induction l as [|x l IH]; intros topics; cbn [fold_left].
  - exists []. by rewrite app_nil_r.
  - destruct (IH (add_once topics x)) as [more ->]. unfold add_once.
    case_bool_decide; [by exists more|].
    exists ([x] ++ more). by rewrite app_assoc.
Qed.

Lemma join_cons_nonempty (sep x : str) (l : list str) :
  x <> [] -> join sep (x :: l) <> [].
Proof. intros Hx. destruct l, x; done. Qed.

Section TopicsExtras.
Context `{PyLib}.

(** X13.  The topic list only grows at its end: the topics found in the first
    papers keep their places when more papers follow. *)
Theorem topics_append_only (kws : list str) (ps ps' : list ExtractedPaper) :
  exists more,
    collect_topics kws (ps ++ ps') = collect_topics kws ps ++ more.
Proof.
  rewrite !collect_topics_first_seen, flat_map_app, fold_left_app.
  apply fold_add_once_extends.
Qed.

(** X14.  Whatever the papers are, the topics are keywords of the fixed list,
    at most ten of them, and [get_hot_topics] never returns the empty
    string. *)
Theorem hot_topics_bounded (papers : list ExtractedPaper) :
  (forall kw, kw ∈ collect_topics keywords papers -> kw ∈ keywords)
  /\ (length (collect_topics keywords papers) <= 10)%nat
  /\ get_hot_topics papers <> [].
Proof.
  assert (forall kw, kw ∈ collect_topics keywords papers -> kw ∈ keywords) as Hsub.
  { by intros kw [? _]%elem_of_collect_topics. }
  split; [done|]. split.
  - change 10%nat with (length keywords). apply submseteq_length.
    apply NoDup_submseteq; [|done].
    rewrite collect_topics_first_seen. apply fold_add_once_NoDup, NoDup_nil_2.
  - unfold get_hot_topics, format_topics.
    destruct (collect_topics keywords papers) as [|x l] eqn:E; [done|].
    apply join_cons_nonempty.
    assert (x ∈ keywords) as Hx by (apply Hsub; by left).
    clear E Hsub. revert x Hx. apply Forall_forall. by repeat constructor.
Qed.

(** ** What the two documents hold *)

Lemma render_papers_lookup (ps : list ExtractedPaper) (i k : nat) p :
  ps !! k = Some p ->
  exists a b, render_papers i ps = a ++ render_paper (i + k) p ++ b.
Proof.
  revert i k. induction ps as [|q ps IH]; intros i k; [done|].
  destruct k as [|k]; cbn [render_papers].
  - intros [= ->]. exists [], (render_papers (S i) ps).
    by rewrite Nat.add_0_r.
  - intros Hk. destruct (IH (S i) k Hk) as (a & b & ->).
    exists (render_paper i q ++ a), b.
    rewrite <- app_assoc. by replace (i + S k)%nat with (S i + k)%nat by lia.
Qed.

Lemma render_paper_heading (i : nat) (p : ExtractedPaper) :
  exists rest, render_paper i p = paper_heading i p ++ rest.
Proof.
  eexists. unfold render_paper, paper_heading. rewrite <- !app_assoc.
  reflexivity.
Qed.

(** X15.  The Markdown text lists every record of the input, numbered from 1
    in the order of the input: the record at position k has its section,
    under the heading "### k+1. title", in the text; the text also shows the
    number of records and the link to the audio file of the date. *)
Theorem rendered_md_sections (d : str) (records : list PaperRecord) :
  (forall k r, records !! k = Some r ->
     contains (render_paper (S k) (extract_paper_info r)) (rendered_md d records)
     = true
     /\ contains (paper_heading (S k) (extract_paper_info r))
          (rendered_md d records) = true)
  /\ contains (MD_STATS ++ str_of_nat (length records) ++ MD_TOPICS)
       (rendered_md d records) = true
  /\ contains (audio_link d) (rendered_md d records) = true.
Proof.
  split; [|split].
  - intros k r Hk.
    assert (map extract_paper_info records !! k = Some (extract_paper_info r))
      as Hp by by rewrite list_lookup_fmap, Hk.
    destruct (render_papers_lookup _ 1 k _ Hp) as (a & b & E).
    assert (contains (render_paper (S k) (extract_paper_info r))
              (rendered_md d records) = true) as Hsec.
    { unfold rendered_md. cbv zeta. rewrite E.
      do 7 apply contains_app_r. apply contains_app_l, contains_intro. }
    split; [done|].
    apply contains_inv in Hsec as (x & y & ->).
    destruct (render_paper_heading (S k) (extract_paper_info r)) as [rest ->].
    rewrite <- app_assoc. apply contains_intro.
  - unfold rendered_md. cbv zeta. rewrite length_map.
    lazymatch goal with
    | |- contains ?P (MD_HEAD ++ d ++ MD_STATS ++ ?n ++ MD_TOPICS ++ ?rest) = true =>
      replace (MD_HEAD ++ d ++ MD_STATS ++ n ++ MD_TOPICS ++ rest)
        with ((MD_HEAD ++ d) ++ P ++ rest) by (by rewrite <- !app_assoc)
    end.
    apply contains_intro.
  - unfold rendered_md, audio_link. cbv zeta.
    do 8 apply contains_app_r.
    set (head := u "- [收听今日论文解读](../").
    assert (MD_TRAILER = take (length MD_TRAILER - length head) MD_TRAILER ++ head)
      as -> by by vm_compute.
    assert (u "- [收听今日论文解读](../audio/" = head ++ AUDIO_DIR) as ->
      by by vm_compute.
    assert (u "_daily_papers.mp3)" = AUDIO_SUFFIX ++ [41]) as -> by by vm_compute.
    assert (MD_FOOT = [41] ++ drop 1 MD_FOOT) as -> by by vm_compute.
    rewrite <- !app_assoc.
    rewrite !(app_assoc head), !(app_assoc (head ++ _)),
      !(app_assoc ((head ++ _) ++ _)), !(app_assoc (((head ++ _) ++ _) ++ _)).
    apply contains_intro.
Qed.
End TopicsExtras.

(** X16.  The HTML document is the fixed shell around the converted
    Markdown: its [title] element ends with the date, and the output of
    [markdown.markdown] stands, unescaped, inside the container [div]. *)
Theorem html_shell `{PyLib} (markdown_content date_str : str) :
  starts_with (u "<!DOCTYPE html>") (generate_html markdown_content date_str)
  = true
  /\ contains (HTML_TITLE_OPEN ++ date_str ++ HTML_TITLE_CLOSE)
       (generate_html markdown_content date_str) = true
  /\ contains (HTML_CONTAINER_OPEN ++ markdown markdown_content
               ++ HTML_CONTAINER_CLOSE)
       (generate_html markdown_content date_str) = true.
Proof.
  unfold generate_html, render_html_template. cbv zeta.
  assert (HTML_HEAD
          = take (length HTML_HEAD - length HTML_TITLE_OPEN) HTML_HEAD
            ++ HTML_TITLE_OPEN) as Hhead by by vm_compute.
  assert (HTML_STYLE
          = HTML_TITLE_CLOSE
            ++ take (length HTML_STYLE - length HTML_TITLE_CLOSE
                     - length HTML_CONTAINER_OPEN)
                 (drop (length HTML_TITLE_CLOSE) HTML_STYLE)
            ++ HTML_CONTAINER_OPEN) as Hstyle by by vm_compute.
  assert (HTML_FOOT
          = HTML_CONTAINER_CLOSE ++ drop (length HTML_CONTAINER_CLOSE) HTML_FOOT)
    as Hfoot by by vm_compute.
  split; [|split].
  - assert (HTML_HEAD = u "<!DOCTYPE html>" ++ drop 15 HTML_HEAD) as ->
      by by vm_compute.
    rewrite <- app_assoc. apply starts_with_app.
  - rewrite Hhead, Hstyle. rewrite <- !app_assoc.
    rewrite !(app_assoc HTML_TITLE_OPEN), !(app_assoc (HTML_TITLE_OPEN ++ _)).
    rewrite <- (app_assoc HTML_TITLE_OPEN).
    apply contains_intro.
  - rewrite Hstyle, Hfoot. rewrite <- !app_assoc.
    do 4 apply contains_app_r.
    rewrite !(app_assoc HTML_CONTAINER_OPEN),
      !(app_assoc (HTML_CONTAINER_OPEN ++ _)).
    rewrite <- (app_assoc HTML_CONTAINER_OPEN).
    apply (contains_intro _ []).
Qed.

(** * The run when the file system refuses *)

Section RunIOFacts.
Context `{PyLib}.

(** With records in the input, the [try] block comes down to its end. *)
Lemma newsletter_body_io_records (io : Faults) (d : str) (w : World) r l :
  files w !! json_path d = Some (Json (JArray (r :: l))) ->
  newsletter_body_io io d w
  = save_outputs io d (rendered_md d (r :: l))
      (if bool_decide (is_Some (files w !! stats_path)) then w
       else add_log WARNING msg_no_stats w).
Proof.
  intros E.
  unfold newsletter_body_io, save_outputs, os_path_exists, json_load.
  unfold mbind, M_bind, mret, M_ret, logger. cbv zeta.
  rewrite E.
  change (bool_decide (is_Some (Some (Json (JArray (r :: l)))))) with true.
  cbn [negb]. rewrite E.
  cbn [negb is_list items orb length Nat.eqb map].
  destruct (bool_decide (is_Some (files w !! stats_path))); cbn [negb]; reflexivity.
Qed.

(** The end of the [try] block, as a value. *)
Lemma save_outputs_result (io : Faults) (d md : str) (w : World) :
  try_except (save_outputs io d md) w =
    let '(b, writes, final) :=
      save_result io d md (bool_decide (is_Some (files w !! OUTPUT_DIR))) in
    (b, {| today := today w;
           files := apply_writes writes (files w);
           logs := logs w ++ [final] |}).
Proof.
  unfold try_except, save_outputs, save_result.
  unfold mbind, M_bind, mret, M_ret, logger, write_file_io, os_makedirs_io.
  cbv zeta.
  generalize (generate_html md d). intros html.
  destruct (bool_decide (is_Some (files w !! OUTPUT_DIR))); [reflexivity|].
  destruct (makedirs_error io OUTPUT_DIR); [reflexivity|].
  destruct (open_error io (md_path_of d)); [reflexivity|].
  destruct (encodable md); cbn [negb]; [|reflexivity].
  destruct (write_error io (md_path_of d) md); [reflexivity|].
  destruct (open_error io (html_path_of d)); [reflexivity|].
  destruct (encodable html); cbn [negb]; [|reflexivity].
  destruct (write_error io (html_path_of d) html); reflexivity.
Qed.

(** The run, by what it finds: what it returns, the files it leaves and the
    log entries it adds. *)
Lemma generate_newsletter_io_result (io : Faults) (date_str : option str)
    (w : World) :
  generate_newsletter_io io date_str w =
    let d := effective_date date_str w in
    let '(b, writes, new) :=
      run_result io d (files w !! json_path d)
        (bool_decide (is_Some (files w !! stats_path)))
        (bool_decide (is_Some (files w !! OUTPUT_DIR))) in
    (b, {| today := today w;
           files := apply_writes writes (files w);
           logs := logs w ++ new |}).
Proof.
  unfold generate_newsletter_io, run_result. cbv zeta.
  generalize (effective_date date_str w). intros d.
  destruct (files w !! json_path d) as [[v|s]|] eqn:E.
  - destruct v as [| | | | |[|r l]];
      try (unfold try_except, newsletter_body_io, os_path_exists, json_load;
           unfold mbind, M_bind, mret, M_ret, logger; rewrite E;
           change (bool_decide (is_Some (Some ?x))) with true;
           cbn [negb]; rewrite E; reflexivity).
    unfold try_except at 1.
    rewrite (newsletter_body_io_records io d w r l E).
    change (match ?m ?w0 with
            | (inl e, w') => (false, snd (logger ERROR (msg_failed e) w'))
            | (inr b, w') => (b, w')
            end) with (try_except m w0).
    rewrite save_outputs_result.
    destruct (bool_decide (is_Some (files w !! stats_path))).
    + by destruct (save_result _ _ _ _) as [[b writes] final].
    + cbn [files add_log logs].
      destruct (save_result _ _ _ _) as [[b writes] final].
      by rewrite <- app_assoc.
  - unfold try_except, newsletter_body_io, os_path_exists, json_load.
    unfold mbind, M_bind, mret, M_ret, logger. rewrite E.
    change (bool_decide (is_Some (Some ?x))) with true.
    cbn [negb]. by rewrite E.
  - unfold try_except, newsletter_body_io, os_path_exists, json_load.
    unfold mbind, M_bind, mret, M_ret, logger. by rewrite E.
Qed.
End RunIOFacts.

Section RunIOClaims.
Context `{PyLib}.

Lemma save_result_true (io : Faults) (d md : str) (dir : bool) :
  (save_result io d md dir).1.1 = true
  <-> dir = false /\ makedirs_error io OUTPUT_DIR = false
      /\ accepts io (md_path_of d) md = true
      /\ accepts io (html_path_of d) (generate_html md d) = true.
Proof.
  unfold save_result, accepts. cbv zeta.
  destruct dir, (makedirs_error io OUTPUT_DIR), (open_error io (md_path_of d)),
    (encodable md), (write_error io (md_path_of d) md),
    (open_error io (html_path_of d)), (encodable (generate_html md d)),
    (write_error io (html_path_of d) (generate_html md d));
    cbn [negb andb fst]; split; try done; intros (? & ? & ? & ?); done.
Qed.

Lemma save_result_success (io : Faults) (d md : str) (dir : bool) :
  (save_result io d md dir).1.1 = true ->
  save_result io d md dir
  = (true,
     [(md_path_of d, Text md); (html_path_of d, Text (generate_html md d))],
     (INFO, msg_generated (md_path_of d))).
Proof.
  unfold save_result. cbv zeta.
  destruct dir, (makedirs_error io OUTPUT_DIR), (open_error io (md_path_of d)),
    (encodable md), (write_error io (md_path_of d) md),
    (open_error io (html_path_of d)), (encodable (generate_html md d)),
    (write_error io (html_path_of d) (generate_html md d));
    cbn [negb fst]; done.
Qed.

(** The files that the end of the [try] block leaves: none, the Markdown
    file, or the whole Markdown file and then the HTML file; and it fails
    with an error. *)
Lemma save_result_shape (io : Faults) (d md : str) (dir : bool) :
  ((save_result io d md dir).1.2 = []
   \/ (exists f, (save_result io d md dir).1.2 = [(md_path_of d, f)])
   \/ (exists f, (save_result io d md dir).1.2
                 = [(md_path_of d, Text md); (html_path_of d, f)]))
  /\ ((save_result io d md dir).1.1 = false ->
      exists e, (save_result io d md dir).2 = (ERROR, msg_failed e)).
Proof.
  unfold save_result. cbv zeta.
  destruct dir, (makedirs_error io OUTPUT_DIR), (open_error io (md_path_of d)),
    (encodable md), (write_error io (md_path_of d) md),
    (open_error io (html_path_of d)), (encodable (generate_html md d)),
    (write_error io (html_path_of d) (generate_html md d));
    cbn [negb fst snd];
    (split; [first [by left | right; left; by eexists | right; right; by eexists]
            |first [done | intros _; by eexists]]).
Qed.

Lemma lookup_apply_writes_two (fs : gmap str file) p1 f1 p2 f2 :
  p1 <> p2 ->
  apply_writes [(p1, f1); (p2, f2)] fs !! p1 = Some f1
  /\ apply_writes [(p1, f1); (p2, f2)] fs !! p2 = Some f2.
Proof.
  intros Hne. unfold apply_writes. cbn [fold_left fst snd]. split.
  - rewrite lookup_insert_ne by done. apply lookup_insert_eq.
  - apply lookup_insert_eq.
Qed.

Lemma lookup_apply_writes_other (writes : list (str * file))
    (fs : gmap str file) (path : str) :
  (forall pf, pf ∈ writes -> pf.1 <> path) ->
  apply_writes writes fs !! path = fs !! path.
Proof.
  unfold apply_writes. revert fs.
  induction writes as [|[p f] writes IH]; intros fs Hp; [done|].
  cbn [fold_left fst snd]. rewrite IH.
  - apply lookup_insert_ne. apply (Hp (p, f)). by left.
  - intros pf Hin. apply Hp. by right.
Qed.

(** ** C9: determinism *)

(** C9.  Two runs for the same explicit date, over worlds that agree on the
    input file of that date and on whether the statistics file exists:
    whenever both return [True], the Markdown files they leave hold the same
    text, and so do the HTML files, whatever else differs between the two
    worlds and whatever the file system refuses elsewhere.  When in addition
    the file system refuses the same calls in both and the output directory
    is blocked by a regular file in both or in neither, the two runs return
    the same value, add the same log entries and leave the same files at the
    same paths, also when they fail half way. *)
Theorem generate_newsletter_deterministic (io1 io2 : Faults) (d : str)
    (w1 w2 : World) :
  d <> [] ->
  files w1 !! json_path d = files w2 !! json_path d ->
  (is_Some (files w1 !! stats_path) <-> is_Some (files w2 !! stats_path)) ->
  let out1 := generate_newsletter_io io1 (Some d) w1 in
  let out2 := generate_newsletter_io io2 (Some d) w2 in
  (fst out1 = true -> fst out2 = true ->
   exists md html,
     files (snd out1) !! md_path_of d = Some (Text md)
     /\ files (snd out2) !! md_path_of d = Some (Text md)
     /\ files (snd out1) !! html_path_of d = Some (Text html)
     /\ files (snd out2) !! html_path_of d = Some (Text html))
  /\ (io1 = io2 ->
      (is_Some (files w1 !! OUTPUT_DIR) <-> is_Some (files w2 !! OUTPUT_DIR)) ->
      fst out1 = fst out2
      /\ (exists new, logs (snd out1) = logs w1 ++ new
                      /\ logs (snd out2) = logs w2 ++ new)
      /\ (exists writes,
            files (snd out1) = apply_writes writes (files w1)
            /\ files (snd out2) = apply_writes writes (files w2))).
Proof.
  intros Hd Hin Hstats out1 out2. unfold out1, out2.
  rewrite !generate_newsletter_io_result. cbv zeta.
  rewrite !effective_date_explicit by done. rewrite Hin.
  rewrite (bool_decide_ext _ _ Hstats).
  split.
  - unfold run_result.
    destruct (files w2 !! json_path d) as [[[| | | | |[|r l]]|s]|]; try done.
    destruct (save_result io1 _ _ _) as [[b1 ws1] f1] eqn:E1.
    destruct (save_result io2 _ _ _) as [[b2 ws2] f2] eqn:E2.
    cbn [fst snd files]. intros -> ->.
    rewrite save_result_success in E1 by by rewrite E1.
    rewrite save_result_success in E2 by by rewrite E2.
    injection E1 as <- _. injection E2 as <- _.
    exists (rendered_md d (r :: l)),
      (generate_html (rendered_md d (r :: l)) d).
    assert (Hne := md_html_paths_differ d).
    destruct (lookup_apply_writes_two (files w1) (md_path_of d)
                (Text (rendered_md d (r :: l))) (html_path_of d)
                (Text (generate_html (rendered_md d (r :: l)) d)) Hne).
    destruct (lookup_apply_writes_two (files w2) (md_path_of d)
                (Text (rendered_md d (r :: l))) (html_path_of d)
                (Text (generate_html (rendered_md d (r :: l)) d)) Hne).
    done.
  - intros <- Hdir. rewrite (bool_decide_ext _ _ Hdir).
    destruct (run_result io1 d _ _ _) as [[b writes] new].
    cbn [fst snd files logs]. split; [done|]. split; by eexists.
Qed.
End RunIOClaims.

Section RunIOExtras.
Context `{PyLib}.

Lemma save_result_md_written (io : Faults) (d md : str) :
  makedirs_error io OUTPUT_DIR = false ->
  accepts io (md_path_of d) md = true ->
  (save_result io d md false).1.2 = [(md_path_of d, Text md)]
  \/ exists f, (save_result io d md false).1.2
               = [(md_path_of d, Text md); (html_path_of d, f)].
Proof.
  unfold save_result, accepts. cbv zeta. intros ->.
  destruct (open_error io (md_path_of d)), (encodable md),
    (write_error io (md_path_of d) md),
    (open_error io (html_path_of d)), (encodable (generate_html md d)),
    (write_error io (html_path_of d) (generate_html md d));
    cbn [negb andb fst snd]; intros ?; first [done | by left | right; by eexists].
Qed.

(** A run leaves every file but its two outputs as it was. *)
Lemma run_io_other_files (io : Faults) (date_str : option str) (w : World)
    (path : str) :
  let d := effective_date date_str w in
  path <> md_path_of d -> path <> html_path_of d ->
  files (snd (generate_newsletter_io io date_str w)) !! path = files w !! path.
Proof.
  intros d H1 H2. rewrite generate_newsletter_io_result. cbv zeta. fold d.
  unfold run_result.
  destruct (files w !! json_path d) as [[[| | | | |[|r l]]|s]|]; try done.
  destruct (save_result_shape io d (rendered_md d (r :: l))
              (bool_decide (is_Some (files w !! OUTPUT_DIR)))) as [Hw _].
  destruct (save_result io d _ _) as [[b writes] final].
  cbn [fst snd files] in *.
  apply lookup_apply_writes_other. intros pf Hin.
  destruct Hw as [->|[[f ->]|[f ->]]].
  - by apply elem_of_nil in Hin.
  - apply list_elem_of_singleton in Hin as ->. done.
  - apply elem_of_cons in Hin as [->|Hin]; [done|].
    apply list_elem_of_singleton in Hin as ->. done.
Qed.

(** ** When a run succeeds *)

(** A run that returns [True] found records and was refused nothing. *)
Lemma run_io_success_inv (io : Faults) (date_str : option str) (w : World) :
  let d := effective_date date_str w in
  fst (generate_newsletter_io io date_str w) = true ->
  exists r l,
    files w !! json_path d = Some (Json (JArray (r :: l)))
    /\ (save_result io d (rendered_md d (r :: l))
          (bool_decide (is_Some (files w !! OUTPUT_DIR)))).1.1 = true.
Proof.
  intros d. rewrite generate_newsletter_io_result. cbv zeta. fold d.
  unfold run_result.
  destruct (files w !! json_path d) as [[[| | | | |[|r l]]|s]|]; try done.
  destruct (save_result io d _ _) as [[b writes] final] eqn:E. cbn [fst].
  intros ->. exists r, l. by rewrite E.
Qed.

Lemma run_io_success_intro (io : Faults) (date_str : option str) (w : World)
    r l :
  let d := effective_date date_str w in
  files w !! json_path d = Some (Json (JArray (r :: l))) ->
  (save_result io d (rendered_md d (r :: l))
     (bool_decide (is_Some (files w !! OUTPUT_DIR)))).1.1 = true ->
  fst (generate_newsletter_io io date_str w) = true.
Proof.
  intros d Hin Hs. rewrite generate_newsletter_io_result. cbv zeta. fold d.
  unfold run_result. rewrite Hin.
  by destruct (save_result io d _ _) as [[b writes] final].
Qed.

(** X2.  A run returns [True] exactly when the input file of the date holds
    a JSON array of at least one record, no regular file stands where the
    output directory should be, [os.makedirs] is not refused, and the
    Markdown and the HTML text are both accepted: their files can be opened
    and written, and the texts hold no lone surrogate. *)
Theorem success_iff_accepted (io : Faults) (date_str : option str) (w : World) :
  let d := effective_date date_str w in
  fst (generate_newsletter_io io date_str w) = true
  <-> exists r l,
        files w !! json_path d = Some (Json (JArray (r :: l)))
        /\ files w !! OUTPUT_DIR = None
        /\ makedirs_error io OUTPUT_DIR = false
        /\ accepts io (md_path_of d) (rendered_md d (r :: l)) = true
        /\ accepts io (html_path_of d)
             (generate_html (rendered_md d (r :: l)) d) = true.
Proof.
  intros d. split.
  - intros (r & l & Hin & Hs)%run_io_success_inv. fold d in Hin, Hs.
    apply save_result_true in Hs as (Hdir & Hmk & Hmd & Hhtml).
    apply bool_decide_eq_false, eq_None_not_Some in Hdir.
    by exists r, l.
  - intros (r & l & Hin & Hdir & Hmk & Hmd & Hhtml).
    apply (run_io_success_intro io date_str w r l Hin).
    apply save_result_true. fold d. split; [|done].
    apply bool_decide_eq_false. by rewrite Hdir; intros [? ?].
Qed.

(** ** The files after a run *)

(** X3.  When a run returns [True], its two outputs hold the rendered
    Markdown and HTML text.  A run touches the HTML file only after it has
    written the whole Markdown file; and it does not clean up: when the
    Markdown text is accepted and the HTML text is refused, the run returns
    [False] and leaves the Markdown file. *)
Theorem outputs_of_run (io : Faults) (date_str : option str) (w : World) :
  let d := effective_date date_str w in
  let out := generate_newsletter_io io date_str w in
  (fst out = true ->
   exists r l,
     files w !! json_path d = Some (Json (JArray (r :: l)))
     /\ files (snd out) !! md_path_of d = Some (Text (rendered_md d (r :: l)))
     /\ files (snd out) !! html_path_of d
        = Some (Text (generate_html (rendered_md d (r :: l)) d)))
  /\ (files (snd out) !! html_path_of d <> files w !! html_path_of d ->
      exists r l,
        files w !! json_path d = Some (Json (JArray (r :: l)))
        /\ files (snd out) !! md_path_of d = Some (Text (rendered_md d (r :: l))))
  /\ (forall r l,
        files w !! json_path d = Some (Json (JArray (r :: l))) ->
        files w !! OUTPUT_DIR = None ->
        makedirs_error io OUTPUT_DIR = false ->
        accepts io (md_path_of d) (rendered_md d (r :: l)) = true ->
        accepts io (html_path_of d) (generate_html (rendered_md d (r :: l)) d)
        = false ->
        fst out = false
        /\ files (snd out) !! md_path_of d = Some (Text (rendered_md d (r :: l)))).
Proof.
  intros d out. unfold out.
  rewrite generate_newsletter_io_result. cbv zeta. fold d.
  assert (Hne := md_html_paths_differ d).
  unfold run_result.
  destruct (files w !! json_path d) as [[[| | | | |[|r l]]|s]|];
    try (cbn [fst snd files]; split; [done|]; split; [by intros []|done]).
  destruct (save_result_shape io d (rendered_md d (r :: l))
              (bool_decide (is_Some (files w !! OUTPUT_DIR)))) as [Hw _].
  assert (Htrue := save_result_true io d (rendered_md d (r :: l))
              (bool_decide (is_Some (files w !! OUTPUT_DIR)))).
  assert (Hsucc := save_result_success io d (rendered_md d (r :: l))
              (bool_decide (is_Some (files w !! OUTPUT_DIR)))).
  assert (files w !! OUTPUT_DIR = None ->
          makedirs_error io OUTPUT_DIR = false ->
          accepts io (md_path_of d) (rendered_md d (r :: l)) = true ->
          (save_result io d (rendered_md d (r :: l))
             (bool_decide (is_Some (files w !! OUTPUT_DIR)))).1.2
          = [(md_path_of d, Text (rendered_md d (r :: l)))]
          \/ exists f,
               (save_result io d (rendered_md d (r :: l))
                  (bool_decide (is_Some (files w !! OUTPUT_DIR)))).1.2
               = [(md_path_of d, Text (rendered_md d (r :: l)));
                  (html_path_of d, f)]) as Hmdw.
  { intros ->. apply save_result_md_written. }
  destruct (save_result io d _ _) as [[b writes] final].
  cbn [fst snd files] in *.
  split; [|split].
  - intros ->. specialize (Hsucc eq_refl). injection Hsucc as -> _.
    exists r, l. split; [done|]. by apply lookup_apply_writes_two.
  - intros Hhtml. exists r, l. split; [done|].
    destruct Hw as [->|[[f ->]|[f ->]]].
    + done.
    + destruct Hhtml. unfold apply_writes. cbn [fold_left fst snd].
      by rewrite lookup_insert_ne.
    + by apply lookup_apply_writes_two.
  - intros r' l' [= <- <-] Hdir Hmk Hmd Hhtml.
    assert (b = false) as ->.
    { destruct b; [|done]. destruct Htrue as [Ht _].
      destruct (Ht eq_refl) as (_ & _ & _ & Ha). congruence. }
    split; [done|].
    destruct (Hmdw Hdir Hmk Hmd) as [->|[f ->]].
    + unfold apply_writes. cbn [fold_left fst snd]. apply lookup_insert_eq.
    + by apply lookup_apply_writes_two.
Qed.

(** X6.  For dates of the form YYYY-MM-DD the two outputs are files directly
    under the output directory, named after the date, so a run for one such
    date leaves the newsletters of every other such date as they were. *)
Theorem other_dates_untouched (io : Faults) (d d' : str) (w : World) :
  iso_date d = true -> iso_date d' = true -> d' <> d ->
  md_path_of d' = OUTPUT_DIR ++ [47] ++ d' ++ MD_SUFFIX
  /\ html_path_of d' = OUTPUT_DIR ++ [47] ++ d' ++ HTML_SUFFIX
  /\ (47 ∉ d') /\ (46 ∉ d')
  /\ md_path_of d' <> md_path_of d /\ html_path_of d' <> html_path_of d
  /\ files (snd (generate_newsletter_io io (Some d) w)) !! md_path_of d'
     = files w !! md_path_of d'
  /\ files (snd (generate_newsletter_io io (Some d) w)) !! html_path_of d'
     = files w !! html_path_of d'.
Proof.
  intros Hd Hd' Hne.
  assert (d <> []) as Hnil by by destruct d.
  assert (md_path_of d' <> md_path_of d) as Hmd.
  { intros E. by apply os_path_join_inj in E. }
  assert (html_path_of d' <> html_path_of d) as Hhtml.
  { intros E. by apply os_path_join_inj in E. }
  assert (md_path_of d' <> html_path_of d) as Hmh.
  { intros E. assert (E' := last_md_path d'). rewrite E, last_html_path in E'.
    discriminate. }
  assert (html_path_of d' <> md_path_of d) as Hhm.
  { intros E. assert (E' := last_html_path d'). rewrite E, last_md_path in E'.
    discriminate. }
  assert (exists y rest, d' = y :: rest /\ y <> 47) as (y & rest & Ey & Hy).
  { destruct d' as [|y rest]; [done|]. exists y, rest. split; [done|].
    intros ->. do 9 (destruct rest as [|? rest]; [done|]).
    by destruct rest. }
  assert (forall x, x ∈ d' -> is_digit x = true \/ x = 45) as Hchars.
  { clear -Hd'.
    destruct d' as [|y1 [|y2 [|y3 [|y4 [|a [|m1 [|m2 [|b [|d1 [|d2 [|? ?]]]]]]]]]]];
      try done.
    cbn [iso_date] in Hd'.
    repeat (apply andb_prop in Hd' as [Hd' ?]).
    intros x Hin.
    repeat (apply elem_of_cons in Hin as [-> | Hin];
            [first [by left
                   | left; unfold is_digit; by apply andb_true_intro
                   | right; by apply N.eqb_eq]|]).
    by apply elem_of_nil in Hin. }
  assert (Hframe := run_io_other_files io (Some d) w). cbv zeta in Hframe.
  rewrite (effective_date_explicit d w Hnil) in Hframe.
  split; [|split; [|split; [|split; [|split; [|split; [|split]]]]]]; try done.
  - rewrite Ey. unfold md_path_of, os_path_join. cbn [app starts_with].
    apply N.eqb_neq in Hy. rewrite N.eqb_sym in Hy. by rewrite Hy.
  - rewrite Ey. unfold html_path_of, os_path_join. cbn [app starts_with].
    apply N.eqb_neq in Hy. rewrite N.eqb_sym in Hy. by rewrite Hy.
  - intros [Hc|[=]]%Hchars. by vm_compute in Hc.
  - intros [Hc|[=]]%Hchars. by vm_compute in Hc.
  - by apply Hframe.
  - by apply Hframe.
Qed.

(** ** The exit status *)

(** X7.  The process exits with status 0 exactly when the run returns
    [True], that is when the input holds records and nothing is refused, and
    with status 1 in every other case; it leaves the world as the run leaves
    it. *)
Theorem main_exit_status (io : Faults) (date_arg : option str) (w : World) :
  let d := effective_date date_arg w in
  (fst (main_io io date_arg w) = 0%nat
   <-> exists r l,
         files w !! json_path d = Some (Json (JArray (r :: l)))
         /\ files w !! OUTPUT_DIR = None
         /\ makedirs_error io OUTPUT_DIR = false
         /\ accepts io (md_path_of d) (rendered_md d (r :: l)) = true
         /\ accepts io (html_path_of d)
              (generate_html (rendered_md d (r :: l)) d) = true)
  /\ (fst (main_io io date_arg w) = 1%nat
      <-> fst (generate_newsletter_io io date_arg w) = false)
  /\ snd (main_io io date_arg w) = snd (generate_newsletter_io io date_arg w).
Proof.
  intros d.
  assert (fst (generate_newsletter_io io date_arg w) = true
          <-> exists r l,
                files w !! json_path d = Some (Json (JArray (r :: l)))
                /\ files w !! OUTPUT_DIR = None
                /\ makedirs_error io OUTPUT_DIR = false
                /\ accepts io (md_path_of d) (rendered_md d (r :: l)) = true
                /\ accepts io (html_path_of d)
                     (generate_html (rendered_md d (r :: l)) d) = true) as Hiff.
  { split.
    - intros (r & l & Hin & Hs)%run_io_success_inv. fold d in Hin, Hs.
      apply save_result_true in Hs as (Hdir & Hmk & Hmd & Hhtml).
      apply bool_decide_eq_false, eq_None_not_Some in Hdir.
      by exists r, l.
    - intros (r & l & Hin & Hdir & Hmk & Hmd & Hhtml).
      apply (run_io_success_intro io date_arg w r l Hin).
      apply save_result_true. fold d. split; [|done].
      apply bool_decide_eq_false. by rewrite Hdir; intros [? ?]. }
  unfold main_io.
  destruct (generate_newsletter_io io date_arg w) as [[|] w'];
    cbn [fst snd negb] in *.
  - split; [|done]. rewrite <- Hiff. done.
  - split; [|done]. rewrite <- Hiff. done.
Qed.

(** ** The log of a run *)


(** ** The image links, whatever is refused *)

(** X19.  Whenever a run returns [True], with or without the statistics
    file, the Markdown file it leaves holds both image links. *)
Theorem written_markdown_has_links (io : Faults) (date_str : option str)
    (w : World) :
  let d := effective_date date_str w in
  let out := generate_newsletter_io io date_str w in
  fst out = true ->
  exists md,
    files (snd out) !! md_path_of d = Some (Text md)
    /\ contains WORDCLOUD_LINK md = true
    /\ contains TREND_LINK md = true.
Proof.
  intros d out. unfold out.
  rewrite generate_newsletter_io_result. cbv zeta. fold d.
  unfold run_result.
  destruct (files w !! json_path d) as [[[| | | | |[|r l]]|s]|]; try done.
  assert (Hsucc := save_result_success io d (rendered_md d (r :: l))
              (bool_decide (is_Some (files w !! OUTPUT_DIR)))).
  destruct (save_result io d _ _) as [[b writes] final].
  cbn [fst snd files] in *. intros ->.
  specialize (Hsucc eq_refl). injection Hsucc as -> _.
  exists (rendered_md d (r :: l)). split.
  - apply lookup_apply_writes_two, md_html_paths_differ.
  - apply rendered_md_links.
Qed.

(** ** The two runs *)

(** X18.  The run on an accepting file system and the run in general differ
    only where the file system refuses: when the general run returns
    [True], or when the accepting one returns [False], the two give the same
    value and the same world. *)
Theorem runs_agree (io : Faults) (date_str : option str) (w : World) :
  (fst (generate_newsletter_io io date_str w) = true ->
   generate_newsletter_io io date_str w = generate_newsletter date_str w)
  /\ (fst (generate_newsletter date_str w) = false ->
      generate_newsletter_io io date_str w = generate_newsletter date_str w).
Proof.
  rewrite generate_newsletter_io_result, generate_newsletter_cases. cbv zeta.
  generalize (effective_date date_str w). intros d.
  unfold run_result.
  destruct (files w !! json_path d) as [[[| | | | |[|r l]]|s]|];
    try (split; done).
  split; [|done].
  assert (Hsucc := save_result_success io d (rendered_md d (r :: l))
              (bool_decide (is_Some (files w !! OUTPUT_DIR)))).
  destruct (save_result io d _ _) as [[b writes] final].
  cbn [fst snd] in *. intros ->.
  specialize (Hsucc eq_refl). injection Hsucc as -> ->.
  f_equal. unfold add_log, put_file.
  destruct (bool_decide (is_Some (files w !! stats_path)));
    cbn [today files logs]; [done|].
  by rewrite <- app_assoc.
Qed.
End RunIOExtras.

(** ** The general run on concrete worlds *)

Lemma generate_newsletter_deterministic_witness :
  let out1 := generate_newsletter_io (H := ascii_lib) no_faults
                (Some example_date) one_record_world in
  let out2 := generate_newsletter_io (H := ascii_lib) no_faults
                (Some example_date) other_world in
  fst out1 = true /\ fst out2 = true
  /\ (exists md html,
        files (snd out1) !! md_path_of example_date = Some (Text md)
        /\ files (snd out2) !! md_path_of example_date = Some (Text md)
        /\ files (snd out1) !! html_path_of example_date = Some (Text html)
        /\ files (snd out2) !! html_path_of example_date = Some (Text html))
  /\ (exists new, logs (snd out1) = logs one_record_world ++ new
                  /\ logs (snd out2) = logs other_world ++ new)
  /\ (exists writes,
        files (snd out1) = apply_writes writes (files one_record_world)
        /\ files (snd out2) = apply_writes writes (files other_world)).
Proof.
  intros out1 out2.
  destruct (generate_newsletter_deterministic (H := ascii_lib) no_faults
              no_faults example_date one_record_world other_world)
    as [Hsame Hall].
  - discriminate.
  - reflexivity.
  - split; intros [x Hx]; by vm_compute in Hx.
  - split; [reflexivity|]. split; [reflexivity|].
    split; [apply Hsame; reflexivity|].
    apply Hall; [reflexivity|].
    split; intros [x Hx]; by vm_compute in Hx.
Defined.

(** A regular file where the output directory should be: the run fails
    after the warning, and writes nothing. *)
Lemma success_iff_accepted_witness :
  fst (generate_newsletter_io (H := ascii_lib) no_faults (Some example_date)
         blocked_world) <> true
  /\ fst (generate_newsletter_io (H := ascii_lib) no_faults (Some example_date)
            one_record_world) = true.
Proof.
  split.
  - intros (r & l & _ & Hdir & _)%(success_iff_accepted (H := ascii_lib)).
    by vm_compute in Hdir.
  - apply (success_iff_accepted (H := ascii_lib)).
    exists example_record, []. repeat split; reflexivity.
Defined.

(** A disk that is full when the HTML file is written: the run fails and
    leaves the Markdown file. *)
Lemma outputs_of_run_witness :
  fst (generate_newsletter_io (H := ascii_lib) html_refused (Some example_date)
         one_record_world) = false
  /\ files (snd (generate_newsletter_io (H := ascii_lib) html_refused
                   (Some example_date) one_record_world))
       !! md_path_of example_date
     = Some (Text (rendered_md (H := ascii_lib) example_date [example_record])).
Proof.
  destruct (outputs_of_run (H := ascii_lib) html_refused (Some example_date)
              one_record_world) as (_ & _ & Hleft).
  apply (Hleft example_record []); reflexivity.
Defined.

Lemma other_dates_untouched_witness :
  md_path_of (u "2024-01-02") = u "newsletters/2024-01-02_daily_paper.md"
  /\ md_path_of (u "2024-01-02") <> md_path_of example_date
  /\ files (snd (generate_newsletter_io (H := ascii_lib) no_faults
                   (Some example_date) one_record_world))
       !! md_path_of (u "2024-01-02")
     = files one_record_world !! md_path_of (u "2024-01-02").
Proof.
  destruct (other_dates_untouched (H := ascii_lib) no_faults example_date
              (u "2024-01-02") one_record_world)
    as (Hmd & _ & _ & _ & Hne & _ & Hfile & _);
    [reflexivity|reflexivity|discriminate|].
  split; [exact Hmd|]. split; [exact Hne|exact Hfile].
Defined.


Lemma written_markdown_has_links_witness :
  files one_record_world !! stats_path = None
  /\ exists md,
       files (snd (generate_newsletter_io (H := ascii_lib) no_faults
                     (Some example_date) one_record_world))
         !! md_path_of example_date = Some (Text md)
       /\ contains WORDCLOUD_LINK md = true
       /\ contains TREND_LINK md = true.
Proof.
  split; [reflexivity|].
  apply (written_markdown_has_links (H := ascii_lib) no_faults
           (Some example_date) one_record_world).
  reflexivity.
Defined.

Example blocked_directory_run :
  generate_newsletter_io (H := ascii_lib) no_faults (Some example_date)
    blocked_world
  = (false,
     add_log ERROR (msg_failed (FileExistsError OUTPUT_DIR))
       (add_log WARNING msg_no_stats blocked_world)).
Proof. by vm_compute. Qed.

(** A lone surrogate in the title: the Markdown file is made and left empty,
    the HTML file is not made. *)
Example surrogate_run :
  let out := generate_newsletter_io (H := ascii_lib) no_faults
               (Some example_date) surrogate_world in
  fst out = false
  /\ files (snd out) !! md_path_of example_date = Some (Text [])
  /\ files (snd out) !! html_path_of example_date = None
  /\ exists text,
       logs (snd out)
       = [(WARNING, msg_no_stats); (ERROR, msg_failed (UnicodeEncodeError text))].
Proof.
  cbv zeta. split; [by vm_compute|]. split; [by vm_compute|].
  split; [by vm_compute|]. eexists. by vm_compute.
Qed.

(** The run on an accepting file system does not see the blocked directory;
    the general run does. *)
Example accepting_run_differs :
  fst (generate_newsletter (H := ascii_lib) (Some example_date) blocked_world)
  = true
  /\ fst (generate_newsletter_io (H := ascii_lib) no_faults (Some example_date)
            blocked_world) = false.
Proof. by vm_compute. Qed.
